(** * Tile renderer of the mapserver: cache, recursion and compositing

    A shallow embedding of [tilerenderer/renderer.go] (methods [Render] and
    [RenderImage] of [TileRenderer]) together with the small parts of the Go
    standard library it calls ([image], [image/draw]), followed by the
    properties of the recursive render/cache algorithm.

    Conventions.
    - Go [int] values (coordinates, zoom, layer ids, timestamps) are [Z]; no
      arithmetic of the embedded code can overflow.
    - A [[]byte] is a [list byte]; the [nil] slice and the empty slice are both
      the empty list (callers tell them apart by length only).
    - A [*image.NRGBA] that may be [nil] is an [option image.NRGBA].
    - A Go [(value, error)] result is a [result]; the effects (tile database,
      clock) are threaded through a state monad that also records the I/O
      performed. *)

From Stdlib Require Import ZArith List String Lia Bool.
From Stdlib.Strings Require Import Byte.
From stdpp Require Import base decidable option list countable gmap strings.

Local Open Scope Z_scope.

(** ** Package [image] (Go standard library) *)

Module color.

(** [color.NRGBA]: non-premultiplied 8-bit channels. *)
Record NRGBA := mkNRGBA { R : Z; G : Z; B : Z; A : Z }.

(** The zero value, which is also fully transparent black. *)
Definition zero : NRGBA := mkNRGBA 0 0 0 0.

End color.

Module image.

Record Point := mkPoint { X : Z; Y : Z }.

Record Rectangle := mkRectangle { Min : Point; Max : Point }.

(** [image.ZP] and [image.ZR]. *)
Definition ZP : Point := mkPoint 0 0.
Definition ZR : Rectangle := mkRectangle ZP ZP.

(** [image.Rect]: the rectangle with the given corners, put in canonical
    order. *)
Definition Rect (x0 y0 x1 y1 : Z) : Rectangle :=
  let '(x0, x1) := if x0 >? x1 then (x1, x0) else (x0, x1) in
  let '(y0, y1) := if y0 >? y1 then (y1, y0) else (y0, y1) in
  mkRectangle (mkPoint x0 y0) (mkPoint x1 y1).

Definition Point_Sub (p q : Point) : Point :=
  mkPoint (X p - X q) (Y p - Y q).

Definition Rectangle_Add (r : Rectangle) (p : Point) : Rectangle :=
  mkRectangle (mkPoint (X (Min r) + X p) (Y (Min r) + Y p))
              (mkPoint (X (Max r) + X p) (Y (Max r) + Y p)).

Definition Rectangle_Empty (r : Rectangle) : bool :=
  (X (Min r) >=? X (Max r)) || (Y (Min r) >=? Y (Max r)).

(** [Rectangle.Intersect]: the largest rectangle contained in both; the
    zero rectangle when they do not overlap. *)
Definition Rectangle_Intersect (r s : Rectangle) : Rectangle :=
  let minx := if X (Min r) <? X (Min s) then X (Min s) else X (Min r) in
  let miny := if Y (Min r) <? Y (Min s) then Y (Min s) else Y (Min r) in
  let maxx := if X (Max r) >? X (Max s) then X (Max s) else X (Max r) in
  let maxy := if Y (Max r) >? Y (Max s) then Y (Max s) else Y (Max r) in
  let r' := mkRectangle (mkPoint minx miny) (mkPoint maxx maxy) in
  if Rectangle_Empty r' then ZR else r'.

(** [Point.In]. *)
Definition Point_In (p : Point) (r : Rectangle) : bool :=
  (X (Min r) <=? X p) && (X p <? X (Max r)) &&
  (Y (Min r) <=? Y p) && (Y p <? Y (Max r)).

(** An in-memory image, seen through its bounds and its pixels.  [Pix]
    stands for the pixel buffer indexed by point; [At] is the accessor,
    which answers the zero colour outside the bounds as the Go accessors
    do.  The same record stands for a decoded [image.Image]: its colours
    are taken after conversion by the NRGBA colour model, which is what
    drawing onto an NRGBA destination does with them. *)
Record NRGBA := mkImage { Pix : Z → Z → color.NRGBA; Bounds : Rectangle }.

Definition At (img : NRGBA) (x y : Z) : color.NRGBA :=
  if Point_In (mkPoint x y) (Bounds img) then Pix img x y else color.zero.

(** [image.NewNRGBA]: a zeroed image with the given bounds. *)
Definition NewNRGBA (r : Rectangle) : NRGBA :=
  mkImage (λ _ _, color.zero) r.

End image.

(** ** Package [image/draw] *)

Module draw.

(** [draw.Draw dst r src sp draw.Src]: [r] is clipped to the bounds of
    [dst] and to the bounds of [src] moved so that [sp] falls on the
    corner of [r]; every pixel of the clipped rectangle is replaced by the
    pixel of [src] it is aligned with.  Between two NRGBA images the copy
    is exact. *)
Definition Draw (dst : image.NRGBA) (r : image.Rectangle)
    (src : image.NRGBA) (sp : image.Point) : image.NRGBA :=
  let orig := image.Min r in
  let r := image.Rectangle_Intersect r (image.Bounds dst) in
  let r := image.Rectangle_Intersect r
             (image.Rectangle_Add (image.Bounds src) (image.Point_Sub orig sp)) in
  image.mkImage
    (λ x y, if image.Point_In (image.mkPoint x y) r
            then image.At src (image.X sp + x - image.X orig)
                              (image.Y sp + y - image.Y orig)
            else image.Pix dst x y)
    (image.Bounds dst).

End draw.

(** ** Package [coords] *)

Module coords.

Module MapBlockCoords.
Record t := mk { X : BinNums.Z; Y : BinNums.Z; Z : BinNums.Z }.
End MapBlockCoords.

(** [NewMapBlockCoords]. *)
Definition NewMapBlockCoords (x y z : Z) : MapBlockCoords.t :=
  MapBlockCoords.mk x y z.

Definition MaxCoord : Z := 2047.
Definition MinCoord : Z := -2047.

(** The range of map blocks a tile covers, as used by [RenderImage]
    ([mbr.Pos1], [mbr.Pos2]). *)
Module MapBlockRange.
Record t := mk { Pos1 : MapBlockCoords.t; Pos2 : MapBlockCoords.t }.
End MapBlockRange.

(** A tile address, with the fields [RenderImage] reads. *)
Module TileCoords.
Record t := mk { X : Z; Y : Z; Zoom : Z; LayerId : Z }.
End TileCoords.

(** The four children of a tile, as used by [RenderImage]. *)
Module TileQuadrants.
Record t := mk { UpperLeft : TileCoords.t; UpperRight : TileCoords.t;
                   LowerLeft : TileCoords.t; LowerRight : TileCoords.t }.
End TileQuadrants.

End coords.

Global Instance TileCoords_eq_dec : EqDecision coords.TileCoords.t.
Proof. solve_decision. Defined.

Global Instance TileCoords_countable : Countable coords.TileCoords.t.
Proof.
refine (inj_countable'
          (λ tc, (coords.TileCoords.X tc, coords.TileCoords.Y tc,
                  coords.TileCoords.Zoom tc, coords.TileCoords.LayerId tc))
          (λ '(x, y, z, l), coords.TileCoords.mk x y z l) _).
by intros [].
Defined.

(** ** Package [layer] *)

Module layer.

(** A layer descriptor with the fields [RenderImage] reads: its id and its
    vertical bounds. *)
Record Layer := mkLayer { Id : Z; From : Z; To : Z }.

End layer.

(** ** Package [tiledb] *)

Module tiledb.

(** [tiledb.Tile]. *)
Record Tile := mkTile { Pos : coords.TileCoords.t; Data : list byte; Mtime : Z }.

(** [tiledb.DBAccessor], the interface of the persistent tile cache, over an
    abstract database state [DB].  An [inl] answer is the error the Go method
    returns; [GetTile] answers [inr None] for an address without entry.
    [SetTile] answers the new state and its error, if any. *)
Class DBAccessor (DB : Type) := {
  GetTile : DB → coords.TileCoords.t → string + option Tile;
  SetTile : DB → Tile → DB * option string
}.

(** What a database that works as a store guarantees: a write that reports no
    error is read back, and leaves every other address as it was. *)
Class DBAccessorLaws (DB : Type) `{DBAccessor DB} : Prop := {
  GetTile_SetTile_eq : ∀ db t db',
    SetTile db t = (db', None) → GetTile db' (Pos t) = inr (Some t);
  GetTile_SetTile_ne : ∀ db t db' tc,
    SetTile db t = (db', None) → tc ≠ Pos t → GetTile db' tc = GetTile db tc
}.

End tiledb.

(** ** Errors, results and effects *)

(** The errors [Render] and [RenderImage] return: the two they create
    themselves, and the errors of the tile database, of the PNG decoder and of
    the map block renderer, which they pass on unchanged. *)
Inductive error :=
| NoLayerFound                  (* errors.New("No layer found") *)
| InvalidZoom                   (* errors.New("Invalid zoom") *)
| CacheIOError (msg : string)   (* from tdb.GetTile *)
| DecodeError (msg : string)    (* from png.Decode *)
| RenderError (msg : string).   (* from mapblockrenderer.Render *)

Inductive result (A : Type) :=
| Ok (a : A)
| Err (e : error).
Arguments Ok {A} a.
Arguments Err {A} e.

(** The I/O a call performs, in order.  [EvRenderImage] marks the entry of a
    [RenderImage] call with its arguments; the others are the calls to the
    collaborators. *)
Inductive Event :=
| EvRenderImage (tc : coords.TileCoords.t) (cachedOnly : bool)
| EvGetTile (tc : coords.TileCoords.t)
| EvSetTile (t : tiledb.Tile) (err : option string)
| EvMapBlockRender (pos1 pos2 : coords.MapBlockCoords.t).

(** The mutable world: the tile database and the wall clock (in seconds). *)
Record World (DB : Type) := mkWorld { tdb : DB; clock : Z }.
Arguments mkWorld {DB} tdb clock.
Arguments tdb {DB} w.
Arguments clock {DB} w.

(** A computation from a world: [None] when the recursion budget of the model
    is exhausted, otherwise the Go result, the new world and the events. *)
Definition M (DB A : Type) : Type :=
  World DB → option (result A * World DB * list Event).

Definition ret {DB A} (a : A) : M DB A := λ w, Some (Ok a, w, []).

Definition fail {DB A} (e : error) : M DB A := λ w, Some (Err e, w, []).

Definition exhausted {DB A} : M DB A := λ _, None.

Definition bind {DB A B} (m : M DB A) (f : A → M DB B) : M DB B :=
  λ w, match m w with
       | None => None
       | Some (Err e, w1, l1) => Some (Err e, w1, l1)
       | Some (Ok a, w1, l1) =>
           match f a w1 with
           | None => None
           | Some (r, w2, l2) => Some (r, w2, l1 ++ l2)
           end
       end.

Declare Scope go_scope.
Delimit Scope go_scope with go.
Notation "'let*' x ':=' m 'in' k" := (bind m (λ x, k))
  (at level 10, x name, m at level 100, k at level 200) : go_scope.
Notation "'do*' m 'in' k" := (bind m (λ _, k))
  (at level 10, m at level 100, k at level 200) : go_scope.

Definition emit {DB} (ev : Event) : M DB unit := λ w, Some (Ok tt, w, [ev]).

(** [time.Now().Unix()]. *)
Definition time_Now_Unix {DB} : M DB Z := λ w, Some (Ok (clock w), w, []).

(** [tr.tdb.GetTile(tc)]. *)
Definition tdb_GetTile `{tiledb.DBAccessor DB} (tc : coords.TileCoords.t)
    : M DB (option tiledb.Tile) :=
  λ w, Some (match tiledb.GetTile (tdb w) tc with
             | inl e => Err (CacheIOError e)
             | inr t => Ok t
             end, w, [EvGetTile tc]).

(** [tr.tdb.SetTile(&tile)]; the error it returns is a value like any other. *)
Definition tdb_SetTile `{tiledb.DBAccessor DB} (t : tiledb.Tile)
    : M DB (option string) :=
  λ w, let '(db', err) := tiledb.SetTile (tdb w) t in
       Some (Ok err, mkWorld db' (clock w), [EvSetTile t err]).

(** ** Imported code that is not part of [renderer.go] *)

(** The functions [RenderImage] calls in other packages: the PNG codec, the
    resampler of [github.com/disintegration/imaging] (always called with the
    Lanczos filter) and the two address helpers of package [coords].  They
    are parameters of the development.
    - [png_Encode img] is what [png.Encode(buf, img)] leaves in a new buffer
      (the error it may return is dropped by both callers).
    - [png_Decode data] is [png.Decode] on a reader over [data].
    - [GetMapBlockRangeFromTile tc 0] is the block range a tile covers.
    - [GetZoomedQuadrantsFromTile tc] gives the four children of [tc]. *)
Class Imports := {
  png_Encode : image.NRGBA → list byte;
  png_Decode : list byte → string + image.NRGBA;
  imaging_Resize : image.NRGBA → Z → Z → image.NRGBA;
  GetMapBlockRangeFromTile : coords.TileCoords.t → Z → coords.MapBlockRange.t;
  GetZoomedQuadrantsFromTile : coords.TileCoords.t → coords.TileQuadrants.t
}.

(** Modelled from the spec: the body of [GetZoomedQuadrantsFromTile] is not
    among the sources; the data model says its four addresses are at zoom+1.
    Only the zoom of the children matters to the recursion. *)
Definition quadrants_one_zoom_finer `{Imports} : Prop :=
  ∀ tc : coords.TileCoords.t,
    let q := GetZoomedQuadrantsFromTile tc in
    let z := coords.TileCoords.Zoom tc + 1 in
    coords.TileCoords.Zoom (coords.TileQuadrants.UpperLeft q) = z ∧
    coords.TileCoords.Zoom (coords.TileQuadrants.UpperRight q) = z ∧
    coords.TileCoords.Zoom (coords.TileQuadrants.LowerLeft q) = z ∧
    coords.TileCoords.Zoom (coords.TileQuadrants.LowerRight q) = z.

(** ** Package [tilerenderer] *)

Module tilerenderer.

(** [TileRenderer]: the map block renderer (seen through its [Render]
    method) and the configured layers.  The tile database [tdb] is the
    mutable part and lives in the [World]; [dba] is not used by the two
    methods below. *)
Record TileRenderer := mkTileRenderer {
  mapblockrenderer :
    coords.MapBlockCoords.t → coords.MapBlockCoords.t → string + option image.NRGBA;
  layers : list layer.Layer
}.

Definition IMG_SIZE : Z := 256.

(** [tr.mapblockrenderer.Render(pos1, pos2)]. *)
Definition mapblockrenderer_Render {DB} (tr : TileRenderer)
    (pos1 pos2 : coords.MapBlockCoords.t) : M DB (option image.NRGBA) :=
  λ w, Some (match mapblockrenderer tr pos1 pos2 with
             | inl e => Err (RenderError e)
             | inr img => Ok img
             end, w, [EvMapBlockRender pos1 pos2]).

(** *** The layer lookup (lines 105-111)
<<
    var layer *layer.Layer
    for _, l := range tr.layers {
        if l.Id == tc.LayerId {
            layer = &l
        }
    }
>>
    The toolchain of the repository is Go 1.16: the range clause declares one
    variable [l] for the whole loop and assigns the next element to it at
    every iteration.  [layer] is either [nil] or the address of that one
    variable, so what it points to after the loop is the last value assigned
    to [l]. *)
Inductive LayerPtr :=
| nil_ptr
| addr_l.

Record LoopVars := mkLoopVars {
  var_l : option layer.Layer;   (* [l]; no value before the first iteration *)
  var_layer : LayerPtr          (* [layer] *)
}.

Definition layer_loop_body (LayerId : Z) (vars : LoopVars) (elem : layer.Layer)
    : LoopVars :=
  let l := elem in                                  (* the next element is assigned to [l] *)
  if layer.Id l =? LayerId
  then mkLoopVars (Some l) addr_l                   (* layer = &l *)
  else mkLoopVars (Some l) (var_layer vars).

Definition layer_loop (ls : list layer.Layer) (LayerId : Z) : LoopVars :=
  fold_left (layer_loop_body LayerId) ls (mkLoopVars None nil_ptr).

(** [*layer] after the loop; [None] stands for [layer == nil]. *)
Definition deref_layer (vars : LoopVars) : option layer.Layer :=
  match var_layer vars with
  | nil_ptr => None
  | addr_l => var_l vars
  end.

(** *** The compositing step (lines 155-184)

    A new [IMG_SIZE] square image; each child that is not [nil] is resized to
    128 by 128 and drawn over its quadrant. *)
Definition draw_quadrant `{Imports} (img : image.NRGBA) (rect : image.Rectangle)
    (child : option image.NRGBA) : image.NRGBA :=
  match child with
  | Some c =>
      let resizedImg := imaging_Resize c 128 128 in
      draw.Draw img rect resizedImg image.ZP
  | None => img
  end.

Definition compose `{Imports}
    (upperLeft upperRight lowerLeft lowerRight : option image.NRGBA)
    : image.NRGBA :=
  let img := image.NewNRGBA
               (image.mkRectangle (image.mkPoint 0 0)
                                  (image.mkPoint IMG_SIZE IMG_SIZE)) in
  let rect := image.Rect 0 0 128 128 in
  let img := draw_quadrant img rect upperLeft in
  let rect := image.Rect 128 0 256 128 in
  let img := draw_quadrant img rect upperRight in
  let rect := image.Rect 0 128 128 256 in
  let img := draw_quadrant img rect lowerLeft in
  let rect := image.Rect 128 128 256 256 in
  let img := draw_quadrant img rect lowerRight in
  img.

(** *** [RenderImage] (lines 74-195)

    The recursion of the Go function is on the children of the address; the
    model takes the number of nested calls it may still make and is
    [exhausted] at zero.  [RenderImage_fuel_enough] below shows that two
    levels are always enough when children are one zoom level finer.  The
    test [img != nil] before the encoding (line 187) is always true and is
    left out. *)
Fixpoint RenderImage_fuel `{Imports} `{tiledb.DBAccessor DB} (fuel : nat)
    (tr : TileRenderer) (tc : coords.TileCoords.t) (cachedOnly : bool)
    : M DB (option image.NRGBA) :=
  match fuel with
  | O => exhausted
  | S fuel =>
    (do* emit (EvRenderImage tc cachedOnly) in
     let* cachedtile := tdb_GetTile tc in
     match cachedtile with
     | Some cachedtile =>
         match png_Decode (tiledb.Data cachedtile) with
         | inl err => fail (DecodeError err)
         | inr cachedimg =>
             let rect := image.mkRectangle (image.mkPoint 0 0)
                                           (image.mkPoint IMG_SIZE IMG_SIZE) in
             let img := image.NewNRGBA rect in
             let img := draw.Draw img rect cachedimg image.ZP in
             ret (Some img)
         end
     | None =>
         if cachedOnly then ret None else
         match deref_layer (layer_loop (layers tr) (coords.TileCoords.LayerId tc)) with
         | None => fail NoLayerFound
         | Some layer =>
             if (coords.TileCoords.Zoom tc >? 13) || (coords.TileCoords.Zoom tc <? 1)
             then fail InvalidZoom
             else if coords.TileCoords.Zoom tc =? 13 then
               (* max zoomed in on mapblock level *)
               let mbr := GetMapBlockRangeFromTile tc 0 in
               let Pos1 := coords.MapBlockRange.Pos1 mbr in
               let Pos2 := coords.MapBlockRange.Pos2 mbr in
               let Pos1 := coords.MapBlockCoords.mk (coords.MapBlockCoords.X Pos1)
                             (layer.From layer) (coords.MapBlockCoords.Z Pos1) in
               let Pos2 := coords.MapBlockCoords.mk (coords.MapBlockCoords.X Pos2)
                             (layer.To layer) (coords.MapBlockCoords.Z Pos2) in
               mapblockrenderer_Render tr Pos1 Pos2
             else
               (* zoom 1-12 *)
               let quads := GetZoomedQuadrantsFromTile tc in
               let recursiveCachedOnly := coords.TileCoords.Zoom tc <? 12 in
               let* upperLeft := RenderImage_fuel fuel tr
                   (coords.TileQuadrants.UpperLeft quads) recursiveCachedOnly in
               let* upperRight := RenderImage_fuel fuel tr
                   (coords.TileQuadrants.UpperRight quads) recursiveCachedOnly in
               let* lowerLeft := RenderImage_fuel fuel tr
                   (coords.TileQuadrants.LowerLeft quads) recursiveCachedOnly in
               let* lowerRight := RenderImage_fuel fuel tr
                   (coords.TileQuadrants.LowerRight quads) recursiveCachedOnly in
               let img := compose upperLeft upperRight lowerLeft lowerRight in
               let buf := png_Encode img in
               let* now := time_Now_Unix in
               let tile := tiledb.mkTile tc buf now in
               do* tdb_SetTile tile in
               ret (Some img)
         end
     end)%go
  end.

(** The recursion budget of the entry points: one level per zoom level. *)
Definition MAX_DEPTH : nat := 13.

Definition RenderImage `{Imports} `{tiledb.DBAccessor DB}
    (tr : TileRenderer) (tc : coords.TileCoords.t) (cachedOnly : bool)
    : M DB (option image.NRGBA) :=
  RenderImage_fuel MAX_DEPTH tr tc cachedOnly.

(** *** [Render] (lines 44-72)

    The answer is the encoded tile; the empty list is the [nil] of the
    "empty tile" case. *)
Definition Render `{Imports} `{tiledb.DBAccessor DB}
    (tr : TileRenderer) (tc : coords.TileCoords.t) : M DB (list byte) :=
  ((* Check cache *)
   let* tile := tdb_GetTile tc in
   match tile with
   | None =>
       (* No tile in db *)
       let* img := RenderImage tr tc false in
       match img with
       | None => ret []                       (* empty tile *)
       | Some img => ret (png_Encode img)
       end
   | Some tile => ret (tiledb.Data tile)
   end)%go.

End tilerenderer.

(** ** A concrete instance

    Small executable stand-ins for the imported code, used to run the model:
    an in-memory tile database, a sampling codec, a nearest-neighbour
    resampler, the usual quadtree addressing, and two layers. *)

Module Sample.

(** An in-memory database; writes fail when it is not [writable]. *)
Record MemDB := mkMemDB {
  store : gmap coords.TileCoords.t tiledb.Tile;
  writable : bool
}.

#[export] Instance MemDB_accessor : tiledb.DBAccessor MemDB := {|
  tiledb.GetTile db tc := inr (store db !! tc);
  tiledb.SetTile db t :=
    if writable db
    then (mkMemDB (<[tiledb.Pos t := t]> (store db)) true, None)
    else (db, Some "attempt to write a readonly database"%string)
|}.

Definition empty_db : MemDB := mkMemDB ∅ true.
Definition readonly_db : MemDB := mkMemDB ∅ false.

Definition byte_of_Z (z : Z) : byte :=
  default x00 (Byte.of_N (Z.to_N (z mod 256))).

Definition Z_of_byte (b : byte) : Z := Z.of_N (Byte.to_N b).

(** The points at which the codec samples an image: the centres of the four
    quadrants. *)
Definition sample_points : list (Z * Z) :=
  [(64, 64); (192, 64); (64, 192); (192, 192)].

Definition solid (c : color.NRGBA) : image.NRGBA :=
  image.mkImage (λ _ _, c) (image.Rect 0 0 256 256).

Definition blank : image.NRGBA := solid color.zero.

Definition grey (a : Z) : color.NRGBA := color.mkNRGBA a a a a.

(** A one-byte signature followed by one grey level per quadrant. *)
Definition sample_encode (img : image.NRGBA) : list byte :=
  x89 :: map (λ p, byte_of_Z (color.A (image.At img (fst p) (snd p)))) sample_points.

Definition sample_decode (data : list byte) : string + image.NRGBA :=
  match data with
  | [] => inl "unexpected EOF"%string
  | x89 :: [ul; ur; ll; lr] =>
      inr (image.mkImage
             (λ x y, grey (Z_of_byte
                             (if x <? 128
                              then (if y <? 128 then ul else ll)
                              else (if y <? 128 then ur else lr))))
             (image.Rect 0 0 256 256))
  | _ => inl "png: invalid format: not a PNG file"%string
  end.

(** Nearest-neighbour resampling to [w] by [h]. *)
Definition sample_resize (img : image.NRGBA) (w h : Z) : image.NRGBA :=
  let b := image.Bounds img in
  let sw := image.X (image.Max b) - image.X (image.Min b) in
  let sh := image.Y (image.Max b) - image.Y (image.Min b) in
  image.mkImage
    (λ x y, image.At img (image.X (image.Min b) + x * sw / w)
                         (image.Y (image.Min b) + y * sh / h))
    (image.Rect 0 0 w h).

Definition sample_range (tc : coords.TileCoords.t) (y : Z) : coords.MapBlockRange.t :=
  let p := coords.NewMapBlockCoords (coords.TileCoords.X tc) y
             (- coords.TileCoords.Y tc - 1) in
  coords.MapBlockRange.mk p p.

Definition sample_quadrants (tc : coords.TileCoords.t) : coords.TileQuadrants.t :=
  let nextZoom := coords.TileCoords.Zoom tc + 1 in
  let nextZoomX := coords.TileCoords.X tc * 2 in
  let nextZoomY := coords.TileCoords.Y tc * 2 in
  let l := coords.TileCoords.LayerId tc in
  coords.TileQuadrants.mk
    (coords.TileCoords.mk nextZoomX nextZoomY nextZoom l)
    (coords.TileCoords.mk (nextZoomX + 1) nextZoomY nextZoom l)
    (coords.TileCoords.mk nextZoomX (nextZoomY + 1) nextZoom l)
    (coords.TileCoords.mk (nextZoomX + 1) (nextZoomY + 1) nextZoom l).

#[export] Instance imports : Imports := {|
  png_Encode := sample_encode;
  png_Decode := sample_decode;
  imaging_Resize := sample_resize;
  GetMapBlockRangeFromTile := sample_range;
  GetZoomedQuadrantsFromTile := sample_quadrants
|}.

(** Two layers, "ground" and "sky". *)
Definition ground : layer.Layer := layer.mkLayer 0 (-1) 10.
Definition sky : layer.Layer := layer.mkLayer 1 11 24.

(** A map block renderer that draws every block in one grey, except the
    blocks at negative x, which are empty, and the block column x = 1000, on
    which it fails. *)
Definition sample_blocks (pos1 pos2 : coords.MapBlockCoords.t)
    : string + option image.NRGBA :=
  if coords.MapBlockCoords.X pos1 =? 1000 then inl "mapblock not readable"%string
  else if coords.MapBlockCoords.X pos1 <? 0 then inr None
  else inr (Some (solid (grey 200))).

Definition tr : tilerenderer.TileRenderer :=
  tilerenderer.mkTileRenderer sample_blocks [ground; sky].

Definition world (db : MemDB) : World MemDB := mkWorld db 1614556800.

(** Addresses used in the runs: one per kind of zoom in layer 0, one with a
    zoom that is not valid, and one in a layer that is not registered. *)
Definition tc5 : coords.TileCoords.t := coords.TileCoords.mk 3 4 5 0.
Definition tc12 : coords.TileCoords.t := coords.TileCoords.mk 3 4 12 0.
Definition tc13 : coords.TileCoords.t := coords.TileCoords.mk 3 4 13 0.
Definition tc_zoom0 : coords.TileCoords.t := coords.TileCoords.mk 0 0 0 0.
Definition tc_layer7 : coords.TileCoords.t := coords.TileCoords.mk 3 4 99 7.

(** A database whose entry for [tc5] does not hold an encoded image. *)
Definition corrupt_tile : tiledb.Tile := tiledb.mkTile tc5 [x00; x01] 1614550000.
Definition corrupt_db : MemDB := mkMemDB {[ tc5 := corrupt_tile ]} true.

(** The events of the cold request of [tc12]. *)
Definition cold12_events : list Event :=
  Eval vm_compute in
    match tilerenderer.Render tr tc12 (world empty_db) with
    | Some (_, _, evs) => evs
    | None => []
    end.

(** The world after the cold request of [tc12]: its tile is stored. *)
Definition warm12 : World MemDB :=
  world (mkMemDB {[ tc12 := tiledb.mkTile tc12 [x89; xc8; xc8; xc8; xc8] 1614556800 ]} true).

(** An address at zoom 12 whose first child lies on the block column the
    sample renderer fails on. *)
Definition tc_unreadable : coords.TileCoords.t := coords.TileCoords.mk 500 4 12 0.

(** A database that holds one child of [tc5], the upper left one. *)
Definition tc5_upper_left : coords.TileCoords.t := coords.TileCoords.mk 6 8 6 0.
Definition child_db : MemDB :=
  mkMemDB {[ tc5_upper_left :=
               tiledb.mkTile tc5_upper_left [x89; xc8; xc8; xc8; xc8] 1614550000 ]} true.

(** What the sample decoder makes of the bytes of that entry. *)
Definition decoded_grey : image.NRGBA :=
  match sample_decode [x89; xc8; xc8; xc8; xc8] with
  | inr img => img
  | inl _ => blank
  end.

(** The events of the request of [tc_unreadable] on the empty cache. *)
Definition unreadable_events : list Event :=
  Eval vm_compute in
    match tilerenderer.Render tr tc_unreadable (world empty_db) with
    | Some (_, _, evs) => evs
    | None => []
    end.

(** The decoded entry of [tc5_upper_left], redrawn as [RenderImage] does. *)
Definition cached_upper_left : image.NRGBA :=
  let rect := image.mkRectangle (image.mkPoint 0 0)
                (image.mkPoint tilerenderer.IMG_SIZE tilerenderer.IMG_SIZE) in
  draw.Draw (image.NewNRGBA rect) rect decoded_grey image.ZP.

(** The cold request of [tc5] through [RenderImage]: its events, the world
    it leaves, and what the sample decoder makes of the bytes it wrote. *)
Definition cold5_events : list Event :=
  Eval vm_compute in
    match tilerenderer.RenderImage tr tc5 false (world empty_db) with
    | Some (_, _, evs) => evs
    | None => []
    end.

Definition warm5 : World MemDB :=
  world (mkMemDB {[ tc5 := tiledb.mkTile tc5 [x89; x00; x00; x00; x00] 1614556800 ]} true).

Definition decoded_blank : image.NRGBA :=
  match sample_decode [x89; x00; x00; x00; x00] with
  | inr img => img
  | inl _ => blank
  end.

(** An address at zoom 13 for which the sample renderer has no image. *)
Definition tc13_void : coords.TileCoords.t := coords.TileCoords.mk (-3) 4 13 0.

End Sample.

(** ** Vocabulary of the statements *)

(** The tiles a run tried to write, the [RenderImage] calls it made, the
    block ranges it asked the map block renderer for, and the addresses it
    looked up, each in order. *)
Definition writes (evs : list Event) : list tiledb.Tile :=
  omap (λ ev, match ev with EvSetTile t _ => Some t | _ => None end) evs.

Definition calls (evs : list Event) : list (coords.TileCoords.t * bool) :=
  omap (λ ev, match ev with EvRenderImage tc c => Some (tc, c) | _ => None end) evs.

Definition leaf_renders (evs : list Event)
    : list (coords.MapBlockCoords.t * coords.MapBlockCoords.t) :=
  omap (λ ev, match ev with EvMapBlockRender p1 p2 => Some (p1, p2) | _ => None end) evs.

Definition lookups (evs : list Event) : list coords.TileCoords.t :=
  omap (λ ev, match ev with EvGetTile tc => Some tc | _ => None end) evs.

(** A layer with the id of the address is registered. *)
Definition registered (tr : tilerenderer.TileRenderer) (tc : coords.TileCoords.t) : Prop :=
  ∃ l, l ∈ tilerenderer.layers tr ∧ layer.Id l = coords.TileCoords.LayerId tc.

(** The cache has no entry at all. *)
Definition empty_cache `{tiledb.DBAccessor DB} (db : DB) : Prop :=
  ∀ tc, tiledb.GetTile db tc = inr None.

(** The four children of an address, in the order [RenderImage] visits them. *)
Definition children `{Imports} (tc : coords.TileCoords.t) : list coords.TileCoords.t :=
  let quads := GetZoomedQuadrantsFromTile tc in
  [coords.TileQuadrants.UpperLeft quads; coords.TileQuadrants.UpperRight quads;
   coords.TileQuadrants.LowerLeft quads; coords.TileQuadrants.LowerRight quads].

(** What a call answers from the cache alone: the decoded entry redrawn on a
    new tile-sized image, nothing when there is no entry. *)
Definition from_cache `{Imports} `{tiledb.DBAccessor DB} (db : DB)
    (tc : coords.TileCoords.t) : result (option image.NRGBA) :=
  match tiledb.GetTile db tc with
  | inl e => Err (CacheIOError e)
  | inr None => Ok None
  | inr (Some t) =>
      match png_Decode (tiledb.Data t) with
      | inl err => Err (DecodeError err)
      | inr cachedimg =>
          let rect := image.mkRectangle (image.mkPoint 0 0)
                        (image.mkPoint tilerenderer.IMG_SIZE tilerenderer.IMG_SIZE) in
          Ok (Some (draw.Draw (image.NewNRGBA rect) rect cachedimg image.ZP))
      end
  end.

(** The block range handed to the map block renderer at zoom 13, for the
    layer [l] the lookup ended on. *)
Definition leaf_range `{Imports} (l : layer.Layer) (tc : coords.TileCoords.t)
    : coords.MapBlockCoords.t * coords.MapBlockCoords.t :=
  let mbr := GetMapBlockRangeFromTile tc 0 in
  let Pos1 := coords.MapBlockRange.Pos1 mbr in
  let Pos2 := coords.MapBlockRange.Pos2 mbr in
  (coords.MapBlockCoords.mk (coords.MapBlockCoords.X Pos1) (layer.From l)
     (coords.MapBlockCoords.Z Pos1),
   coords.MapBlockCoords.mk (coords.MapBlockCoords.X Pos2) (layer.To l)
     (coords.MapBlockCoords.Z Pos2)).

Definition leaf_result (tr : tilerenderer.TileRenderer) (p : coords.MapBlockCoords.t * coords.MapBlockCoords.t)
    : result (option image.NRGBA) :=
  match tilerenderer.mapblockrenderer tr (fst p) (snd p) with
  | inl e => Err (RenderError e)
  | inr img => Ok img
  end.

(** The four quadrants of a tile and their rectangles. *)
Inductive Quadrant := UpperLeft | UpperRight | LowerLeft | LowerRight.

Definition quadrant_rect (q : Quadrant) : image.Rectangle :=
  match q with
  | UpperLeft => image.Rect 0 0 128 128
  | UpperRight => image.Rect 128 0 256 128
  | LowerLeft => image.Rect 0 128 128 256
  | LowerRight => image.Rect 128 128 256 256
  end.

(** The child drawn into a quadrant. *)
Definition child_of (q : Quadrant) (upperLeft upperRight lowerLeft lowerRight : option image.NRGBA)
    : option image.NRGBA :=
  match q with
  | UpperLeft => upperLeft
  | UpperRight => upperRight
  | LowerLeft => lowerLeft
  | LowerRight => lowerRight
  end.

(** Every pixel of the quadrant is the zero colour. *)
Definition quadrant_blank (img : image.NRGBA) (q : Quadrant) : Prop :=
  ∀ x y, image.Point_In (image.mkPoint x y) (quadrant_rect q) = true →
         image.At img x y = color.zero.

Definition is_Ok {A} (r : result A) : bool :=
  match r with Ok _ => true | Err _ => false end.

(** The claim C1 read to the letter, first part: on this world, [Render]
    answers every address at zoom 5 with the empty answer. *)
Definition zoom5_answers_empty `{Imports} `{tiledb.DBAccessor DB}
    (tr : tilerenderer.TileRenderer) (w : World DB) : Prop :=
  ∀ tc, coords.TileCoords.Zoom tc = 5 →
        ∃ w' evs, tilerenderer.Render tr tc w = Some (Ok [], w', evs).

(** The claim C4 read to the letter: whatever the address, a second call of
    [Render] on the world the first one leaves answers the same and does not
    call the map block renderer. *)
Definition Render_idempotent `{Imports} `{tiledb.DBAccessor DB}
    (tr : tilerenderer.TileRenderer) (w : World DB) : Prop :=
  ∀ tc r1 w1 evs1 r2 w2 evs2,
    tilerenderer.Render tr tc w = Some (r1, w1, evs1) →
    tilerenderer.Render tr tc w1 = Some (r2, w2, evs2) →
    r2 = r1 ∧ leaf_renders evs2 = [].

(** The claim C7 read to the letter, last part: a quadrant of a composed
    tile is blank exactly when its child is empty. *)
Definition blank_iff_empty `{Imports} : Prop :=
  ∀ ul ur ll lr q,
    quadrant_blank (tilerenderer.compose ul ur ll lr) q
    ↔ child_of q ul ur ll lr = None.

(** ** Properties *)

Section Properties.

Context `{Imp : Imports} {DB : Type} `{Acc : !tiledb.DBAccessor DB}.

Implicit Types (tr : tilerenderer.TileRenderer) (tc : coords.TileCoords.t)
  (w : World DB) (evs : list Event).

Lemma writes_app evs1 evs2 : writes (evs1 ++ evs2) = writes evs1 ++ writes evs2.
Proof. apply omap_app. Qed.

Lemma calls_app evs1 evs2 : calls (evs1 ++ evs2) = calls evs1 ++ calls evs2.
Proof. apply omap_app. Qed.

Lemma leaf_renders_app evs1 evs2 :
  leaf_renders (evs1 ++ evs2) = leaf_renders evs1 ++ leaf_renders evs2.
Proof. apply omap_app. Qed.

(** *** The layer lookup *)

Lemma layer_loop_snoc ls x id :
  tilerenderer.layer_loop (ls ++ [x]) id
  = tilerenderer.layer_loop_body id (tilerenderer.layer_loop ls id) x.
Proof. unfold tilerenderer.layer_loop. by rewrite fold_left_app. Qed.

(** After the loop, [l] holds the last element of the list. *)
Lemma layer_loop_var_l ls id :
  tilerenderer.var_l (tilerenderer.layer_loop ls id) = last ls.
Proof.
  induction ls as [|x ls _] using rev_ind; [done|].
  rewrite layer_loop_snoc, last_snoc.
  unfold tilerenderer.layer_loop_body. by case_match.
Qed.

(** [layer] is set exactly when some element has the id looked for. *)
Lemma layer_loop_var_layer ls id :
  tilerenderer.var_layer (tilerenderer.layer_loop ls id) = tilerenderer.addr_l
  ↔ ∃ l, l ∈ ls ∧ layer.Id l = id.
Proof.
  induction ls as [|x ls IH] using rev_ind.
  - split; [done|]. intros (l & Hl & _). by apply elem_of_nil in Hl.
  - rewrite layer_loop_snoc. unfold tilerenderer.layer_loop_body.
    destruct (Z.eqb_spec (layer.Id x) id) as [Heq|Hne]; simpl.
    + split; [|done]. intros _. exists x. split; [|done].
      apply elem_of_app. right. apply list_elem_of_singleton. done.
    + rewrite IH. split.
      * intros (l & Hl & Hid). exists l. split; [|done].
        apply elem_of_app. by left.
      * intros (l & Hl & Hid). apply elem_of_app in Hl as [Hl|Hl].
        -- by exists l.
        -- apply list_elem_of_singleton in Hl. congruence.
Qed.

(** The layer the rest of [RenderImage] works with: none when no layer has
    the id, otherwise the last layer of the list, whichever one matched. *)
Lemma deref_layer_registered tr tc :
  registered tr tc →
  ∃ l, tilerenderer.deref_layer
         (tilerenderer.layer_loop (tilerenderer.layers tr)
            (coords.TileCoords.LayerId tc)) = Some l
       ∧ last (tilerenderer.layers tr) = Some l.
Proof.
  intros Hreg. unfold tilerenderer.deref_layer.
  rewrite (proj2 (layer_loop_var_layer _ _) Hreg), layer_loop_var_l.
  destruct Hreg as (l & Hl & _).
  destruct (last (tilerenderer.layers tr)) as [l'|] eqn:Hlast; [by exists l'|].
  apply last_None in Hlast. rewrite Hlast in Hl. by apply elem_of_nil in Hl.
Qed.

Lemma registered_dec tr tc : {registered tr tc} + {¬ registered tr tc}.
Proof.
  destruct (tilerenderer.var_layer
              (tilerenderer.layer_loop (tilerenderer.layers tr)
                 (coords.TileCoords.LayerId tc))) eqn:Hp.
  - right. intros Hreg. apply layer_loop_var_layer in Hreg. congruence.
  - left. by apply layer_loop_var_layer.
Defined.

Lemma deref_layer_unregistered tr tc :
  ¬ registered tr tc →
  tilerenderer.deref_layer
    (tilerenderer.layer_loop (tilerenderer.layers tr)
       (coords.TileCoords.LayerId tc)) = None.
Proof.
  intros Hreg. unfold tilerenderer.deref_layer.
  destruct (tilerenderer.var_layer _) eqn:Hp; [done|].
  by apply layer_loop_var_layer in Hp.
Qed.

(** *** One call of [RenderImage], path by path *)

Ltac unfold_call :=
  cbn [tilerenderer.RenderImage_fuel];
  unfold bind, emit, tdb_GetTile, tdb_SetTile, time_Now_Unix, ret, fail,
    tilerenderer.mapblockrenderer_Render.

(** When there is an entry, when the lookup fails, and when the call is
    cache-only, the answer comes from the cache alone: one lookup, the world
    as it was. *)
Lemma RenderImage_fuel_from_cache n tr tc cachedOnly w :
  cachedOnly = true ∨ tiledb.GetTile (tdb w) tc ≠ inr None →
  tilerenderer.RenderImage_fuel (S n) tr tc cachedOnly w
  = Some (from_cache (tdb w) tc, w, [EvRenderImage tc cachedOnly; EvGetTile tc]).
Proof.
  intros Hc. unfold_call. unfold from_cache.
  destruct (tiledb.GetTile (tdb w) tc) as [e|[t|]]; simpl; [done| |].
  - by destruct (png_Decode (tiledb.Data t)).
  - by destruct Hc as [->|?].
Qed.

(** The fresh path without a layer of that id. *)
Lemma RenderImage_fuel_no_layer n tr tc w :
  tiledb.GetTile (tdb w) tc = inr None →
  ¬ registered tr tc →
  tilerenderer.RenderImage_fuel (S n) tr tc false w
  = Some (Err NoLayerFound, w, [EvRenderImage tc false; EvGetTile tc]).
Proof.
  intros Hmiss Hreg. unfold_call. rewrite Hmiss. simpl.
  by rewrite deref_layer_unregistered.
Qed.

(** The fresh path with a layer, at a zoom outside 1..13. *)
Lemma RenderImage_fuel_invalid_zoom n tr tc w :
  tiledb.GetTile (tdb w) tc = inr None →
  registered tr tc →
  coords.TileCoords.Zoom tc < 1 ∨ 13 < coords.TileCoords.Zoom tc →
  tilerenderer.RenderImage_fuel (S n) tr tc false w
  = Some (Err InvalidZoom, w, [EvRenderImage tc false; EvGetTile tc]).
Proof.
  intros Hmiss Hreg Hz. unfold_call. rewrite Hmiss. simpl.
  destruct (deref_layer_registered tr tc Hreg) as (l & -> & _).
  destruct (Z.gtb_spec (coords.TileCoords.Zoom tc) 13),
    (Z.ltb_spec (coords.TileCoords.Zoom tc) 1); simpl; try done; lia.
Qed.

(** The fresh path at zoom 13: the map block renderer is asked for the range
    of the tile between the bounds of the last layer of the list. *)
Lemma RenderImage_fuel_leaf n tr tc w l :
  tiledb.GetTile (tdb w) tc = inr None →
  registered tr tc →
  last (tilerenderer.layers tr) = Some l →
  coords.TileCoords.Zoom tc = 13 →
  tilerenderer.RenderImage_fuel (S n) tr tc false w
  = Some (leaf_result tr (leaf_range l tc), w,
          [EvRenderImage tc false; EvGetTile tc;
           EvMapBlockRender (fst (leaf_range l tc)) (snd (leaf_range l tc))]).
Proof.
  intros Hmiss Hreg Hlast Hz. unfold_call. rewrite Hmiss. simpl.
  destruct (deref_layer_registered tr tc Hreg) as (l' & -> & Hlast').
  assert (l' = l) as -> by congruence.
  rewrite Hz. simpl. unfold leaf_result, leaf_range. simpl.
  by destruct (tilerenderer.mapblockrenderer tr _ _).
Qed.

(** A call composes when it is allowed fresh work, finds no entry, and the
    zoom is in 1..12.  Every other call is flat: it returns at once, leaves
    the world as it was, writes nothing and calls [RenderImage] no further. *)
Lemma RenderImage_fuel_flat n tr tc cachedOnly w :
  cachedOnly = true ∨ coords.TileCoords.Zoom tc < 1 ∨ 12 < coords.TileCoords.Zoom tc →
  ∃ r evs,
    tilerenderer.RenderImage_fuel (S n) tr tc cachedOnly w = Some (r, w, evs)
    ∧ writes evs = [] ∧ calls evs = [(tc, cachedOnly)].
Proof.
  intros Hflat.
  destruct cachedOnly.
  { rewrite RenderImage_fuel_from_cache by (by left). by eexists _, _. }
  destruct (tiledb.GetTile (tdb w) tc) as [e|[t|]] eqn:Hmiss.
  1,2: rewrite RenderImage_fuel_from_cache by (right; congruence);
       by eexists _, _.
  destruct Hflat as [?|Hz]; [done|].
  unfold_call. rewrite Hmiss. simpl.
  destruct (tilerenderer.deref_layer _) as [l|]; [|by eexists _, _].
  destruct (Z.gtb_spec (coords.TileCoords.Zoom tc) 13),
    (Z.ltb_spec (coords.TileCoords.Zoom tc) 1); simpl; try by eexists _, _.
  destruct (Z.eqb_spec (coords.TileCoords.Zoom tc) 13); [|lia].
  by eexists _, _.
Qed.

(** *** The composing call *)

(** The children of a composing call are flat calls: cache-only below zoom
    12, and at zoom 13 under zoom 12. *)
Lemma children_flat n tr tc w child :
  quadrants_one_zoom_finer →
  1 ≤ coords.TileCoords.Zoom tc ≤ 12 →
  child ∈ children tc →
  ∃ r evs,
    tilerenderer.RenderImage_fuel (S n) tr child (coords.TileCoords.Zoom tc <? 12) w
    = Some (r, w, evs)
    ∧ writes evs = [] ∧ calls evs = [(child, coords.TileCoords.Zoom tc <? 12)].
Proof.
  intros Hq Hz Hchild. apply RenderImage_fuel_flat.
  destruct (Z.ltb_spec (coords.TileCoords.Zoom tc) 12); [by left|right; right].
  specialize (Hq tc). simpl in Hq. destruct Hq as (H1 & H2 & H3 & H4).
  unfold children in Hchild.
  repeat (apply elem_of_cons in Hchild as [->|Hchild]; [lia|]).
  by apply elem_of_nil in Hchild.
Qed.

(** What a composing call does.  Either one of the children fails, and the
    error is passed on with nothing written; or the four results are
    composed, the encoded composite is handed to [SetTile] under the address
    of the call, and the composite is returned whatever [SetTile] answers. *)
Lemma RenderImage_fuel_compose n tr tc w :
  quadrants_one_zoom_finer →
  tiledb.GetTile (tdb w) tc = inr None →
  registered tr tc →
  1 ≤ coords.TileCoords.Zoom tc ≤ 12 →
  let flag := coords.TileCoords.Zoom tc <? 12 in
  ∃ r w' evs,
    tilerenderer.RenderImage_fuel (S (S n)) tr tc false w = Some (r, w', evs)
    ∧ ((∃ e k, r = Err e ∧ w' = w ∧ writes evs = [] ∧ (k < 4)%nat
               ∧ calls evs = (tc, false) :: ((λ c, (c, flag)) <$> take (S k) (children tc)))
       ∨ (∃ ul ur ll lr pre err,
            let img := tilerenderer.compose ul ur ll lr in
            let tile := tiledb.mkTile tc (png_Encode img) (clock w) in
            r = Ok (Some img)
            ∧ tiledb.SetTile (tdb w) tile = (tdb w', err)
            ∧ clock w' = clock w
            ∧ evs = pre ++ [EvSetTile tile err]
            ∧ writes pre = []
            ∧ calls evs = (tc, false) :: ((λ c, (c, flag)) <$> children tc))).
Proof.
  intros Hq Hmiss Hreg Hz flag.
  destruct (deref_layer_registered tr tc Hreg) as (l & Hl & _).
  assert (∀ child, child ∈ children tc → ∃ r evs,
    tilerenderer.RenderImage_fuel (S n) tr child flag w = Some (r, w, evs)
    ∧ writes evs = [] ∧ calls evs = [(child, flag)]) as Hflat.
  { intros child Hchild. by apply children_flat. }
  unfold children in Hflat.
  destruct (Hflat (coords.TileQuadrants.UpperLeft (GetZoomedQuadrantsFromTile tc)))
    as (r1 & e1 & Hr1 & Hw1 & Hc1); [by repeat constructor|].
  destruct (Hflat (coords.TileQuadrants.UpperRight (GetZoomedQuadrantsFromTile tc)))
    as (r2 & e2 & Hr2 & Hw2 & Hc2); [by repeat constructor|].
  destruct (Hflat (coords.TileQuadrants.LowerLeft (GetZoomedQuadrantsFromTile tc)))
    as (r3 & e3 & Hr3 & Hw3 & Hc3); [by repeat constructor|].
  destruct (Hflat (coords.TileQuadrants.LowerRight (GetZoomedQuadrantsFromTile tc)))
    as (r4 & e4 & Hr4 & Hw4 & Hc4); [by repeat constructor|].
  clear Hflat. remember (S n) as m eqn:Hm.
  unfold_call. rewrite Hmiss. simpl. rewrite Hl.
  destruct (Z.gtb_spec (coords.TileCoords.Zoom tc) 13); [lia|].
  destruct (Z.ltb_spec (coords.TileCoords.Zoom tc) 1); [lia|].
  destruct (Z.eqb_spec (coords.TileCoords.Zoom tc) 13); [lia|].
  simpl. fold flag. rewrite Hr1.
  destruct r1 as [ul|err].
  2:{ eexists _, _, _. split; [done|]. left. exists err, 0%nat.
      repeat split; [|lia|]; simpl; rewrite ?writes_app, ?calls_app, ?Hw1, ?Hc1; done. }
  rewrite Hr2. destruct r2 as [ur|err].
  2:{ eexists _, _, _. split; [done|]. left. exists err, 1%nat.
      repeat split; [|lia|]; simpl;
        rewrite ?writes_app, ?calls_app, ?Hw1, ?Hc1, ?Hw2, ?Hc2; done. }
  rewrite Hr3. destruct r3 as [ll|err].
  2:{ eexists _, _, _. split; [done|]. left. exists err, 2%nat.
      repeat split; [|lia|]; simpl;
        rewrite ?writes_app, ?calls_app, ?Hw1, ?Hc1, ?Hw2, ?Hc2, ?Hw3, ?Hc3; done. }
  rewrite Hr4. destruct r4 as [lr|err].
  2:{ eexists _, _, _. split; [done|]. left. exists err, 3%nat.
      repeat split; [|lia|]; simpl;
        rewrite ?writes_app, ?calls_app, ?Hw1, ?Hc1, ?Hw2, ?Hc2, ?Hw3, ?Hc3, ?Hw4, ?Hc4;
        done. }
  destruct (tiledb.SetTile (tdb w)
              (tiledb.mkTile tc (png_Encode (tilerenderer.compose ul ur ll lr)) (clock w)))
    as [db' err] eqn:Hset.
  eexists _, _, _. split; [done|]. right.
  exists ul, ur, ll, lr,
    ([EvRenderImage tc false; EvGetTile tc] ++ e1 ++ e2 ++ e3 ++ e4), err.
  simpl. repeat split.
  - done.
  - by rewrite <- !app_assoc.
  - rewrite !writes_app, Hw1, Hw2, Hw3, Hw4. done.
  - rewrite !calls_app, Hc1, Hc2, Hc3, Hc4. done.
Qed.

(** *** The recursion budget *)

(** A flat call does not look at its budget. *)
Lemma RenderImage_fuel_flat_any n m tr tc cachedOnly w :
  cachedOnly = true ∨ coords.TileCoords.Zoom tc < 1 ∨ 12 < coords.TileCoords.Zoom tc →
  tilerenderer.RenderImage_fuel (S n) tr tc cachedOnly w
  = tilerenderer.RenderImage_fuel (S m) tr tc cachedOnly w.
Proof.
  intros Hflat. destruct cachedOnly.
  { by rewrite !RenderImage_fuel_from_cache by (by left). }
  destruct (tiledb.GetTile (tdb w) tc) as [e|[t|]] eqn:Hmiss.
  1,2: by rewrite !RenderImage_fuel_from_cache by (right; congruence).
  destruct Hflat as [?|Hz]; [done|].
  unfold_call. rewrite Hmiss. cbn beta iota zeta.
  destruct (tilerenderer.deref_layer _) as [l|]; [|done].
  destruct (Z.gtb_spec (coords.TileCoords.Zoom tc) 13),
    (Z.ltb_spec (coords.TileCoords.Zoom tc) 1); cbn [orb]; try done.
  destruct (Z.eqb_spec (coords.TileCoords.Zoom tc) 13); [done|lia].
Qed.

(** With children one zoom level finer, a budget of two nested calls always
    gives a result, and any larger budget gives the same one: the depth of
    the recursion never exceeds two. *)
Lemma RenderImage_fuel_enough n tr tc cachedOnly w :
  quadrants_one_zoom_finer →
  ∃ out,
    tilerenderer.RenderImage_fuel 2 tr tc cachedOnly w = Some out
    ∧ tilerenderer.RenderImage_fuel (S (S n)) tr tc cachedOnly w = Some out.
Proof.
  intros Hq.
  destruct (decide (cachedOnly = true ∨ coords.TileCoords.Zoom tc < 1
                    ∨ 12 < coords.TileCoords.Zoom tc)) as [Hflat|Hcomp].
  { destruct (RenderImage_fuel_flat 1 tr tc cachedOnly w Hflat) as (r & evs & Hrun & _).
    exists (r, w, evs). split; [done|].
    by rewrite (RenderImage_fuel_flat_any (S n) 1). }
  assert (cachedOnly = false) as -> by (destruct cachedOnly; tauto).
  assert (1 ≤ coords.TileCoords.Zoom tc ≤ 12) as Hz by lia.
  destruct (tiledb.GetTile (tdb w) tc) as [e|[t|]] eqn:Hmiss.
  1,2: rewrite !RenderImage_fuel_from_cache by (right; congruence); by eexists.
  assert (∀ child, child ∈ children tc → ∃ r evs,
    tilerenderer.RenderImage_fuel 1 tr child (coords.TileCoords.Zoom tc <? 12) w
      = Some (r, w, evs)
    ∧ tilerenderer.RenderImage_fuel (S n) tr child (coords.TileCoords.Zoom tc <? 12) w
      = Some (r, w, evs)) as Hflat.
  { intros child Hchild.
    destruct (children_flat 0 tr tc w child Hq Hz Hchild) as (r & evs & Hrun & _).
    exists r, evs. split; [done|]. rewrite <- Hrun.
    apply RenderImage_fuel_flat_any.
    destruct (Z.ltb_spec (coords.TileCoords.Zoom tc) 12); [by left|right; right].
    specialize (Hq tc). simpl in Hq. destruct Hq as (H1 & H2 & H3 & H4).
    unfold children in Hchild.
    repeat (apply elem_of_cons in Hchild as [->|Hchild]; [lia|]).
    by apply elem_of_nil in Hchild. }
  unfold children in Hflat.
  destruct (Hflat (coords.TileQuadrants.UpperLeft (GetZoomedQuadrantsFromTile tc)))
    as (r1 & e1 & Ha1 & Hb1); [by repeat constructor|].
  destruct (Hflat (coords.TileQuadrants.UpperRight (GetZoomedQuadrantsFromTile tc)))
    as (r2 & e2 & Ha2 & Hb2); [by repeat constructor|].
  destruct (Hflat (coords.TileQuadrants.LowerLeft (GetZoomedQuadrantsFromTile tc)))
    as (r3 & e3 & Ha3 & Hb3); [by repeat constructor|].
  destruct (Hflat (coords.TileQuadrants.LowerRight (GetZoomedQuadrantsFromTile tc)))
    as (r4 & e4 & Ha4 & Hb4); [by repeat constructor|].
  clear Hflat.
  remember (S n) as m eqn:Hm. remember 1%nat as m1 eqn:Hm1.
  unfold_call. rewrite Hmiss. cbn beta iota zeta.
  destruct (tilerenderer.deref_layer _) as [l|]; [|by eexists].
  destruct (Z.gtb_spec (coords.TileCoords.Zoom tc) 13); [lia|].
  destruct (Z.ltb_spec (coords.TileCoords.Zoom tc) 1); [lia|].
  destruct (Z.eqb_spec (coords.TileCoords.Zoom tc) 13); [lia|].
  cbn [orb]. rewrite Ha1, Hb1. destruct r1; [|by eexists].
  rewrite Ha2, Hb2. destruct r2; [|by eexists].
  rewrite Ha3, Hb3. destruct r3; [|by eexists].
  rewrite Ha4, Hb4. destruct r4; [|by eexists].
  destruct (tiledb.SetTile _ _). by eexists.
Qed.

(** [RenderImage] always returns. *)
Lemma RenderImage_total tr tc cachedOnly w :
  quadrants_one_zoom_finer →
  ∃ out, tilerenderer.RenderImage tr tc cachedOnly w = Some out.
Proof.
  intros Hq. destruct (RenderImage_fuel_enough 11 tr tc cachedOnly w Hq)
    as (out & _ & Hrun).
  by exists out.
Qed.

(** A composing call that succeeds ends with the write of its own tile: the
    encoding of the image it returns, under the address of the call. *)
Lemma RenderImage_fuel_compose_Ok n tr tc w r w' evs :
  tiledb.GetTile (tdb w) tc = inr None →
  coords.TileCoords.Zoom tc ≠ 13 →
  tilerenderer.RenderImage_fuel (S n) tr tc false w = Some (Ok r, w', evs) →
  ∃ img w0 pre err,
    let tile := tiledb.mkTile tc (png_Encode img) (clock w0) in
    r = Some img
    ∧ tiledb.SetTile (tdb w0) tile = (tdb w', err)
    ∧ evs = pre ++ [EvSetTile tile err].
Proof.
  intros Hmiss Hz. unfold_call. rewrite Hmiss. simpl.
  destruct (tilerenderer.deref_layer _) as [l|]; [|done].
  destruct (_ || _); [done|].
  destruct (Z.eqb_spec (coords.TileCoords.Zoom tc) 13); [done|].
  destruct (tilerenderer.RenderImage_fuel n tr _ _ w)
    as [[[[ul|?] w1] e1]|]; [|done..].
  destruct (tilerenderer.RenderImage_fuel n tr _ _ w1)
    as [[[[ur|?] w2] e2]|]; [|done..].
  destruct (tilerenderer.RenderImage_fuel n tr _ _ w2)
    as [[[[ll|?] w3] e3]|]; [|done..].
  destruct (tilerenderer.RenderImage_fuel n tr _ _ w3)
    as [[[[lr|?] w4] e4]|]; [|done..].
  destruct (tiledb.SetTile (tdb w4) _) as [db' err] eqn:Hset.
  intros [= <- <- <-].
  exists (tilerenderer.compose ul ur ll lr), w4,
    ([EvRenderImage tc false; EvGetTile tc] ++ e1 ++ e2 ++ e3 ++ e4), err.
  simpl. repeat split; [done|]. by rewrite <- !app_assoc.
Qed.

(** *** Cache-only calls and corrupt entries *)

(** C8.  A call of [RenderImage] with [cachedOnly] true on an address without
    cache entry returns the empty result and no error.  It does so for every
    renderer and every address, registered layer and valid zoom or not; all
    it does is the lookup: the world is unchanged, nothing is written and
    the map block renderer is not called. *)
Theorem RenderImage_cachedOnly_miss tr tc w :
  tiledb.GetTile (tdb w) tc = inr None →
  tilerenderer.RenderImage tr tc true w
  = Some (Ok None, w, [EvRenderImage tc true; EvGetTile tc]).
Proof.
  intros Hmiss. unfold tilerenderer.RenderImage, tilerenderer.MAX_DEPTH.
  rewrite RenderImage_fuel_from_cache by (by left).
  unfold from_cache. by rewrite Hmiss.
Qed.

(** C9.  When the address has a cache entry whose bytes do not decode,
    [RenderImage] returns the error of the decoder, whether fresh work is
    allowed or not.  All it does is the lookup: nothing is rendered anew and
    the entry is not overwritten, the world is as it was. *)
Theorem RenderImage_corrupt_entry tr tc cachedOnly w t msg :
  tiledb.GetTile (tdb w) tc = inr (Some t) →
  png_Decode (tiledb.Data t) = inl msg →
  tilerenderer.RenderImage tr tc cachedOnly w
  = Some (Err (DecodeError msg), w, [EvRenderImage tc cachedOnly; EvGetTile tc]).
Proof.
  intros Hhit Hdec. unfold tilerenderer.RenderImage, tilerenderer.MAX_DEPTH.
  rewrite RenderImage_fuel_from_cache by (right; congruence).
  unfold from_cache. by rewrite Hhit, Hdec.
Qed.

(** [Render] itself never decodes: an entry for the requested address is
    answered as stored. *)
Lemma Render_hit tr tc w t :
  tiledb.GetTile (tdb w) tc = inr (Some t) →
  tilerenderer.Render tr tc w = Some (Ok (tiledb.Data t), w, [EvGetTile tc]).
Proof.
  intros Hhit. unfold tilerenderer.Render, bind, tdb_GetTile, ret.
  by rewrite Hhit.
Qed.

(** *** Validation *)

(** C5.  On the fresh path, that is once the lookup of
    the address has found no entry and fresh work is allowed, an address
    whose layer id is not registered fails with [NoLayerFound], and an
    address with a registered layer and a zoom below 1 or above 13 fails with
    [InvalidZoom].  The lookup of the address is the only I/O before either
    check; no write, no lookup or call for a child and no call of the map
    block renderer happens. *)
Theorem RenderImage_validation tr tc w :
  tiledb.GetTile (tdb w) tc = inr None →
  (¬ registered tr tc →
     tilerenderer.RenderImage tr tc false w
     = Some (Err NoLayerFound, w, [EvRenderImage tc false; EvGetTile tc]))
  ∧ (registered tr tc →
     coords.TileCoords.Zoom tc < 1 ∨ 13 < coords.TileCoords.Zoom tc →
     tilerenderer.RenderImage tr tc false w
     = Some (Err InvalidZoom, w, [EvRenderImage tc false; EvGetTile tc])).
Proof.
  intros Hmiss. unfold tilerenderer.RenderImage, tilerenderer.MAX_DEPTH. split.
  - intros Hreg. by apply RenderImage_fuel_no_layer.
  - intros Hreg Hz. by apply RenderImage_fuel_invalid_zoom.
Qed.

(** *** Cache writes *)

(** C2.  Among the calls on the fresh path (no entry for the address, fresh
    work allowed), with children one zoom level finer: a call at zoom 13
    writes nothing to the cache, whatever it returns; a call at a zoom in
    1..12 that returns without error tried exactly one write, of a tile
    under its own address, also when the four children came back empty. *)
Theorem RenderImage_cache_writes tr tc w :
  quadrants_one_zoom_finer →
  tiledb.GetTile (tdb w) tc = inr None →
  ∃ r w' evs,
    tilerenderer.RenderImage tr tc false w = Some (r, w', evs)
    ∧ (coords.TileCoords.Zoom tc = 13 → writes evs = [] ∧ w' = w)
    ∧ (1 ≤ coords.TileCoords.Zoom tc ≤ 12 → is_Ok r = true →
       ∃ t, writes evs = [t] ∧ tiledb.Pos t = tc).
Proof.
  intros Hq Hmiss. unfold tilerenderer.RenderImage, tilerenderer.MAX_DEPTH.
  destruct (decide (1 ≤ coords.TileCoords.Zoom tc ≤ 12)) as [Hz|Hz].
  - destruct (registered_dec tr tc) as [Hreg|Hreg].
    + destruct (RenderImage_fuel_compose 11 tr tc w Hq Hmiss Hreg Hz)
        as (r & w' & evs & Hrun & Hcase).
      exists r, w', evs. split; [done|]. split; [lia|]. intros _ Hok.
      destruct Hcase as [(e & k & -> & _)|(ul & ur & ll & lr & pre & err & Hcase)];
        [done|].
      simpl in Hcase. destruct Hcase as (_ & _ & _ & -> & Hpre & _).
      eexists. rewrite writes_app, Hpre. by split.
    + rewrite RenderImage_fuel_no_layer by done.
      eexists _, _, _. split; [done|]. split; [lia|]. done.
  - destruct (RenderImage_fuel_flat 12 tr tc false w) as (r & evs & Hrun & Hw & _);
      [lia|].
    exists r, w, evs. split; [done|]. split; [done|]. lia.
Qed.

(** *** The recursion flag *)

(** C3.  A call on the fresh path at a zoom in 1..12 (no entry, a registered
    layer, children one zoom level finer) calls [RenderImage] for its
    children only, in the order upper left, upper right, lower left, lower
    right, each with the cache-only flag [zoom < 12]; it stops at the first
    child that fails and calls all four when it returns without error.  The
    flag is false exactly at zoom 12 and true at every zoom in 1..11, and the
    children are at zoom+1. *)
Theorem RenderImage_children_flag tr tc w :
  quadrants_one_zoom_finer →
  tiledb.GetTile (tdb w) tc = inr None →
  registered tr tc →
  1 ≤ coords.TileCoords.Zoom tc ≤ 12 →
  let flag := coords.TileCoords.Zoom tc <? 12 in
  ∃ r w' evs k,
    tilerenderer.RenderImage tr tc false w = Some (r, w', evs)
    ∧ calls evs = (tc, false) :: ((λ c, (c, flag)) <$> take k (children tc))
    ∧ (1 ≤ k ≤ 4)%nat
    ∧ (is_Ok r = true → k = 4%nat)
    ∧ (∀ c, c ∈ children tc →
         coords.TileCoords.Zoom c = coords.TileCoords.Zoom tc + 1)
    ∧ (flag = false ↔ coords.TileCoords.Zoom tc = 12)
    ∧ (flag = true ↔ 1 ≤ coords.TileCoords.Zoom tc ≤ 11).
Proof.
  intros Hq Hmiss Hreg Hz flag.
  unfold tilerenderer.RenderImage, tilerenderer.MAX_DEPTH.
  destruct (RenderImage_fuel_compose 11 tr tc w Hq Hmiss Hreg Hz)
    as (r & w' & evs & Hrun & Hcase).
  assert (∀ c, c ∈ children tc →
            coords.TileCoords.Zoom c = coords.TileCoords.Zoom tc + 1) as Hzoom.
  { intros c Hc. specialize (Hq tc). simpl in Hq.
    destruct Hq as (H1 & H2 & H3 & H4). unfold children in Hc.
    repeat (apply elem_of_cons in Hc as [->|Hc]; [done|]).
    by apply elem_of_nil in Hc. }
  assert (flag = false ↔ coords.TileCoords.Zoom tc = 12) as Hfalse.
  { unfold flag. destruct (Z.ltb_spec (coords.TileCoords.Zoom tc) 12);
      split; intros; try done; lia. }
  assert (flag = true ↔ 1 ≤ coords.TileCoords.Zoom tc ≤ 11) as Htrue.
  { unfold flag. destruct (Z.ltb_spec (coords.TileCoords.Zoom tc) 12);
      split; intros; try done; lia. }
  destruct Hcase as [(e & k & -> & _ & _ & Hk & Hcalls)
                    |(ul & ur & ll & lr & pre & err & Hcase)].
  - exists (Err e), w', evs, (S k). split_and!; try done; lia.
  - simpl in Hcase. destruct Hcase as (-> & _ & _ & _ & _ & Hcalls).
    exists (Ok (Some (tilerenderer.compose ul ur ll lr))), w', evs, 4%nat.
    split_and!; try done; lia.
Qed.

(** *** The result of the cache write *)

(** C10.  On the fresh path at a zoom in 1..12 (no entry, a registered
    layer, children one zoom level finer), whenever the call reaches the
    write of its tile, it returns the composed image and no error, whatever
    [SetTile] answered: the tile handed to [SetTile] is the encoding of the
    image returned, and the answer [err] is any, an error included. *)
Theorem RenderImage_write_error_ignored tr tc w r w' evs t err :
  quadrants_one_zoom_finer →
  tiledb.GetTile (tdb w) tc = inr None →
  registered tr tc →
  1 ≤ coords.TileCoords.Zoom tc ≤ 12 →
  tilerenderer.RenderImage tr tc false w = Some (r, w', evs) →
  EvSetTile t err ∈ evs →
  ∃ ul ur ll lr,
    let img := tilerenderer.compose ul ur ll lr in
    r = Ok (Some img)
    ∧ t = tiledb.mkTile tc (png_Encode img) (clock w)
    ∧ tiledb.SetTile (tdb w) t = (tdb w', err).
Proof.
  intros Hq Hmiss Hreg Hz.
  unfold tilerenderer.RenderImage, tilerenderer.MAX_DEPTH.
  destruct (RenderImage_fuel_compose 11 tr tc w Hq Hmiss Hreg Hz)
    as (r0 & w0 & evs0 & -> & Hcase).
  intros [= <- <- <-] Hin.
  assert (∀ l, writes l = [] → EvSetTile t err ∉ l) as Hnot.
  { intros l Hl Hel. apply list_elem_of_split in Hel as (l1 & l2 & ->).
    rewrite writes_app in Hl. apply app_eq_nil in Hl as [_ Hl]. done. }
  destruct Hcase as [(e & k & -> & _ & Hw & _)
                    |(ul & ur & ll & lr & pre & err0 & Hcase)].
  - by apply Hnot in Hin.
  - simpl in Hcase. destruct Hcase as (-> & Hset & _ & -> & Hpre & _).
    apply elem_of_app in Hin as [Hin|Hin]; [by apply Hnot in Hin|].
    apply list_elem_of_singleton in Hin. injection Hin as -> ->.
    by exists ul, ur, ll, lr.
Qed.

(** *** A coarse zoom on a cold cache *)

(** The composite of four empty children is blank everywhere. *)
Lemma compose_empty_blank x y :
  image.At (tilerenderer.compose None None None None) x y = color.zero.
Proof. unfold image.At. simpl. by case_match. Qed.

(** A fresh call at a zoom in 1..11 on an empty cache: four cache-only
    lookups that find nothing, then the write of the blank composite. *)
Lemma RenderImage_fuel_cold n tr tc w :
  1 ≤ coords.TileCoords.Zoom tc ≤ 11 →
  empty_cache (tdb w) →
  registered tr tc →
  let blank := tilerenderer.compose None None None None in
  let tile := tiledb.mkTile tc (png_Encode blank) (clock w) in
  tilerenderer.RenderImage_fuel (S (S n)) tr tc false w
  = Some (Ok (Some blank),
          mkWorld (fst (tiledb.SetTile (tdb w) tile)) (clock w),
          EvRenderImage tc false :: EvGetTile tc
          :: (children tc ≫= λ c, [EvRenderImage c true; EvGetTile c])
          ++ [EvSetTile tile (snd (tiledb.SetTile (tdb w) tile))]).
Proof.
  intros Hz Hempty Hreg blank tile.
  destruct (deref_layer_registered tr tc Hreg) as (l & Hl & _).
  assert (∀ c, tilerenderer.RenderImage_fuel (S n) tr c true w
               = Some (Ok None, w, [EvRenderImage c true; EvGetTile c])) as Hchild.
  { intros c. rewrite RenderImage_fuel_from_cache by (by left).
    unfold from_cache. by rewrite Hempty. }
  remember (S n) as m eqn:Hm.
  unfold_call. rewrite Hempty. cbn beta iota zeta. rewrite Hl.
  destruct (Z.gtb_spec (coords.TileCoords.Zoom tc) 13); [lia|].
  destruct (Z.ltb_spec (coords.TileCoords.Zoom tc) 1); [lia|].
  destruct (Z.eqb_spec (coords.TileCoords.Zoom tc) 13); [lia|].
  destruct (Z.ltb_spec (coords.TileCoords.Zoom tc) 12); [|lia].
  cbn beta iota zeta delta [orb].
  do 4 (rewrite Hchild; cbn beta iota zeta).
  fold blank. fold tile.
  destruct (tiledb.SetTile (tdb w) tile) as [db' err].
  unfold children. simpl. reflexivity.
Qed.

(** C1, as the code has it.  For an address at zoom 5 with a registered
    layer and an entirely empty cache, [Render] looks up the address and its
    four children (cache-only), composes four empty results, hands the
    encoding of the blank composite to [SetTile] under the address, and
    returns that encoding: encoded bytes, not the empty answer, and no
    error.  The map block renderer is not called.  When the database keeps
    what it accepts and accepted the write, the same request on the new
    world is answered by its single lookup with the same bytes. *)
Theorem Render_zoom5_empty_cache tr tc w :
  coords.TileCoords.Zoom tc = 5 →
  empty_cache (tdb w) →
  registered tr tc →
  let blank := tilerenderer.compose None None None None in
  let tile := tiledb.mkTile tc (png_Encode blank) (clock w) in
  ∃ w' err,
    tilerenderer.Render tr tc w
    = Some (Ok (png_Encode blank), w',
            EvGetTile tc :: EvRenderImage tc false :: EvGetTile tc
            :: (children tc ≫= λ c, [EvRenderImage c true; EvGetTile c])
            ++ [EvSetTile tile err])
    ∧ tiledb.SetTile (tdb w) tile = (tdb w', err)
    ∧ (∀ x y, image.At blank x y = color.zero)
    ∧ (tiledb.DBAccessorLaws DB → err = None →
       tilerenderer.Render tr tc w'
       = Some (Ok (png_Encode blank), w', [EvGetTile tc])).
Proof.
  intros Hz Hempty Hreg blank tile.
  destruct (tiledb.SetTile (tdb w) tile) as [db' err] eqn:Hset.
  exists (mkWorld db' (clock w)), err. split_and!.
  - unfold tilerenderer.Render, bind, tdb_GetTile. rewrite Hempty.
    unfold tilerenderer.RenderImage, tilerenderer.MAX_DEPTH.
    rewrite (RenderImage_fuel_cold 11 tr tc w) by (done || lia).
    fold blank. fold tile. rewrite Hset. reflexivity.
  - done.
  - apply compose_empty_blank.
  - intros Hlaws ->. apply (Render_hit tr tc _ tile). simpl.
    apply (tiledb.GetTile_SetTile_eq (tdb w) tile db' Hset).
Qed.

Lemma RenderImage_compose_Ok tr tc w r w' evs :
  tiledb.GetTile (tdb w) tc = inr None →
  coords.TileCoords.Zoom tc ≠ 13 →
  tilerenderer.RenderImage tr tc false w = Some (Ok r, w', evs) →
  ∃ img w0 pre err,
    let tile := tiledb.mkTile tc (png_Encode img) (clock w0) in
    r = Some img
    ∧ tiledb.SetTile (tdb w0) tile = (tdb w', err)
    ∧ evs = pre ++ [EvSetTile tile err].
Proof. exact (RenderImage_fuel_compose_Ok 12 tr tc w r w' evs). Qed.

(** *** Asking twice *)

(** [Render] on an address without entry: the answer of [RenderImage],
    encoded. *)
Lemma Render_miss tr tc w :
  tiledb.GetTile (tdb w) tc = inr None →
  tilerenderer.Render tr tc w
  = match tilerenderer.RenderImage tr tc false w with
    | None => None
    | Some (Err e, w', evs) => Some (Err e, w', EvGetTile tc :: evs)
    | Some (Ok None, w', evs) => Some (Ok [], w', EvGetTile tc :: evs ++ [])
    | Some (Ok (Some img), w', evs) =>
        Some (Ok (png_Encode img), w', EvGetTile tc :: evs ++ [])
    end.
Proof.
  intros Hmiss. unfold tilerenderer.Render.
  generalize (tilerenderer.RenderImage tr tc false). intros run.
  unfold bind, tdb_GetTile, ret. rewrite Hmiss.
  by destruct (run w) as [[[[[img|]|e] w'] evs]|].
Qed.

(** C4, as the code has it.  Take a call of [Render] that returns bytes, on
    an address that is cached already or whose zoom is not 13, over a
    database that keeps what it accepts and that accepted the writes of the
    call.  The same call on the world it leaves returns the same bytes; all
    it does is one lookup, so the map block renderer is not called and the
    world stays as it is. *)
Theorem Render_twice tr tc w b w1 evs1 :
  tiledb.DBAccessorLaws DB →
  tilerenderer.Render tr tc w = Some (Ok b, w1, evs1) →
  (coords.TileCoords.Zoom tc = 13 → ∃ t, tiledb.GetTile (tdb w) tc = inr (Some t)) →
  (∀ t err, EvSetTile t err ∈ evs1 → err = None) →
  tilerenderer.Render tr tc w1 = Some (Ok b, w1, [EvGetTile tc]).
Proof.
  intros Hlaws Hrun H13 Hacc.
  destruct (tiledb.GetTile (tdb w) tc) as [e|[t|]] eqn:Hget.
  - unfold tilerenderer.Render in Hrun.
    revert Hrun. generalize (tilerenderer.RenderImage tr tc false). intros run.
    unfold bind, tdb_GetTile. by rewrite Hget.
  - rewrite (Render_hit tr tc w t Hget) in Hrun.
    injection Hrun as <- <- <-. by apply Render_hit.
  - assert (coords.TileCoords.Zoom tc ≠ 13) as Hz.
    { intros Hz. destruct (H13 Hz) as (t & Ht). congruence. }
    rewrite (Render_miss tr tc w Hget) in Hrun.
    destruct (tilerenderer.RenderImage tr tc false w) as [[[[r|e] w'] evs]|] eqn:Himg;
      [|done..].
    apply RenderImage_compose_Ok in Himg as (img & w0 & pre & err & Himg);
      [|done..].
    simpl in Himg. destruct Himg as (-> & Hset & ->).
    injection Hrun as <- <- <-.
    assert (err = None) as ->.
    { eapply Hacc. rewrite app_nil_r. apply elem_of_cons. right.
      apply elem_of_app. right. by apply list_elem_of_singleton. }
    apply (Render_hit tr tc w'
             (tiledb.mkTile tc (png_Encode img) (clock w0))).
    apply (tiledb.GetTile_SetTile_eq _ _ _ Hset).
Qed.

(** *** Compositing *)

Lemma Point_In_spec x y r :
  image.Point_In (image.mkPoint x y) r = true
  ↔ image.X (image.Min r) ≤ x < image.X (image.Max r)
    ∧ image.Y (image.Min r) ≤ y < image.Y (image.Max r).
Proof.
  unfold image.Point_In. cbn [image.X image.Y].
  rewrite !andb_true_iff, !Z.leb_le, !Z.ltb_lt. lia.
Qed.

Lemma Point_In_Intersect p r s :
  image.Point_In p (image.Rectangle_Intersect r s)
  = image.Point_In p r && image.Point_In p s.
Proof.
  destruct p as [x y]. apply eq_true_iff_eq.
  rewrite andb_true_iff, !Point_In_spec.
  destruct r as [[rx0 ry0] [rx1 ry1]], s as [[sx0 sy0] [sx1 sy1]].
  unfold image.Rectangle_Intersect, image.Rectangle_Empty.
  cbn [image.X image.Y image.Min image.Max].
  destruct (Z.ltb_spec rx0 sx0), (Z.ltb_spec ry0 sy0),
    (Z.gtb_spec rx1 sx1), (Z.gtb_spec ry1 sy1);
    match goal with
    | |- context [if ?b then _ else _] => destruct b eqn:Hempty
    end;
    cbn [image.ZR image.ZP image.X image.Y image.Min image.Max];
    (apply orb_true_iff in Hempty || apply orb_false_iff in Hempty);
    rewrite !Z.geb_leb, ?Z.leb_le, ?Z.leb_gt in Hempty; lia.
Qed.

Lemma Point_In_Add x y r p :
  image.Point_In (image.mkPoint x y) (image.Rectangle_Add r p)
  = image.Point_In (image.mkPoint (x - image.X p) (y - image.Y p)) r.
Proof.
  apply eq_true_iff_eq. rewrite !Point_In_spec.
  unfold image.Rectangle_Add. cbn [image.X image.Y image.Min image.Max]. lia.
Qed.

(** A pixel after [draw.Draw]: the aligned source pixel inside the clipped
    rectangle, the old pixel elsewhere. *)
Lemma At_Draw dst r src sp x y :
  image.At (draw.Draw dst r src sp) x y
  = if image.Point_In (image.mkPoint x y) (image.Bounds dst)
       && image.Point_In (image.mkPoint x y) r
       && image.Point_In
            (image.mkPoint (image.X sp + x - image.X (image.Min r))
                           (image.Y sp + y - image.Y (image.Min r)))
            (image.Bounds src)
    then image.At src (image.X sp + x - image.X (image.Min r))
                      (image.Y sp + y - image.Y (image.Min r))
    else image.At dst x y.
Proof.
  unfold draw.Draw. unfold image.At at 1. cbn [image.Bounds image.Pix].
  rewrite !Point_In_Intersect, Point_In_Add.
  cbn [image.Point_Sub image.X image.Y].
  replace (x - (image.X (image.Min r) - image.X sp))
    with (image.X sp + x - image.X (image.Min r)) by lia.
  replace (y - (image.Y (image.Min r) - image.Y sp))
    with (image.Y sp + y - image.Y (image.Min r)) by lia.
  unfold image.At at 3.
  destruct (image.Point_In (image.mkPoint x y) (image.Bounds dst)),
    (image.Point_In (image.mkPoint x y) r),
    (image.Point_In _ (image.Bounds src)) eqn:Hsrc; cbn [andb]; try reflexivity.
Qed.

Lemma Bounds_draw_quadrant img rect child :
  image.Bounds (tilerenderer.draw_quadrant img rect child) = image.Bounds img.
Proof. by destruct child. Qed.

(** A pixel after one step of the compositing: inside the rectangle of the
    step and with a child, the pixel of the resized child (the zero colour
    where the resized child has no pixel and the image had none); elsewhere
    the pixel as it was. *)
Lemma At_draw_quadrant img rect child x y :
  image.At (tilerenderer.draw_quadrant img rect child) x y
  = match child with
    | Some c =>
        let resizedImg := imaging_Resize c 128 128 in
        let sx := x - image.X (image.Min rect) in
        let sy := y - image.Y (image.Min rect) in
        if image.Point_In (image.mkPoint x y) (image.Bounds img)
           && image.Point_In (image.mkPoint x y) rect
           && image.Point_In (image.mkPoint sx sy) (image.Bounds resizedImg)
        then image.At resizedImg sx sy
        else image.At img x y
    | None => image.At img x y
    end.
Proof.
  destruct child as [c|]; [|done]. unfold tilerenderer.draw_quadrant.
  rewrite At_Draw. cbn [image.ZP image.X image.Y]. by rewrite !Z.add_0_l.
Qed.

Lemma At_draw_quadrant_outside img rect child x y :
  image.Point_In (image.mkPoint x y) rect = false →
  image.At (tilerenderer.draw_quadrant img rect child) x y = image.At img x y.
Proof.
  intros Hout. rewrite At_draw_quadrant. destruct child; [|done].
  cbn zeta. by rewrite Hout, andb_false_r.
Qed.

Lemma At_draw_quadrant_inside img rect child x y :
  image.Point_In (image.mkPoint x y) rect = true →
  image.Point_In (image.mkPoint x y) (image.Bounds img) = true →
  image.At img x y = color.zero →
  image.At (tilerenderer.draw_quadrant img rect child) x y
  = match child with
    | Some c => image.At (imaging_Resize c 128 128)
                  (x - image.X (image.Min rect)) (y - image.Y (image.Min rect))
    | None => color.zero
    end.
Proof.
  intros Hin Hdst Hzero. rewrite At_draw_quadrant. destruct child as [c|]; [|done].
  cbn zeta. rewrite Hzero, Hin, Hdst. cbn [andb].
  destruct (image.Point_In _ (image.Bounds (imaging_Resize c 128 128))) eqn:Hsrc;
    [done|].
  unfold image.At. by rewrite Hsrc.
Qed.

Lemma At_NewNRGBA r x y : image.At (image.NewNRGBA r) x y = color.zero.
Proof. unfold image.At. simpl. by case_match. Qed.

Lemma Point_In_false x y r :
  ¬ (image.X (image.Min r) ≤ x < image.X (image.Max r)
     ∧ image.Y (image.Min r) ≤ y < image.Y (image.Max r)) →
  image.Point_In (image.mkPoint x y) r = false.
Proof. intros Hn. apply not_true_iff_false. by rewrite Point_In_spec. Qed.

(** C7, as the code has it.  In a composed tile, a quadrant whose child is
    not empty holds the child resized to 128 by 128, pixel for pixel, upper
    left child in the top-left quadrant, upper right in the top-right, lower
    left in the bottom-left, lower right in the bottom-right; a quadrant
    whose child is empty is blank. *)
Theorem compose_quadrant ul ur ll lr q x y :
  image.Point_In (image.mkPoint x y) (quadrant_rect q) = true →
  image.At (tilerenderer.compose ul ur ll lr) x y
  = match child_of q ul ur ll lr with
    | Some c =>
        image.At (imaging_Resize c 128 128)
          (x - image.X (image.Min (quadrant_rect q)))
          (y - image.Y (image.Min (quadrant_rect q)))
    | None => color.zero
    end.
Proof.
  intros Hin. apply Point_In_spec in Hin. unfold tilerenderer.compose.
  destruct q; cbn in Hin; cbn [child_of quadrant_rect].
  - do 3 (rewrite At_draw_quadrant_outside by (apply Point_In_false; cbn; lia)).
    apply At_draw_quadrant_inside; [| |apply At_NewNRGBA];
      apply Point_In_spec; cbn; unfold tilerenderer.IMG_SIZE; lia.
  - do 2 (rewrite At_draw_quadrant_outside by (apply Point_In_false; cbn; lia)).
    apply At_draw_quadrant_inside.
    + apply Point_In_spec; cbn; unfold tilerenderer.IMG_SIZE; lia.
    + rewrite Bounds_draw_quadrant. apply Point_In_spec; cbn; unfold tilerenderer.IMG_SIZE; lia.
    + (rewrite At_draw_quadrant_outside by (apply Point_In_false; cbn; lia)). apply At_NewNRGBA.
  - (rewrite At_draw_quadrant_outside by (apply Point_In_false; cbn; lia)).
    apply At_draw_quadrant_inside.
    + apply Point_In_spec; cbn; unfold tilerenderer.IMG_SIZE; lia.
    + rewrite !Bounds_draw_quadrant. apply Point_In_spec; cbn; unfold tilerenderer.IMG_SIZE; lia.
    + do 2 (rewrite At_draw_quadrant_outside by (apply Point_In_false; cbn; lia)). apply At_NewNRGBA.
  - apply At_draw_quadrant_inside.
    + apply Point_In_spec; cbn; unfold tilerenderer.IMG_SIZE; lia.
    + rewrite !Bounds_draw_quadrant. apply Point_In_spec; cbn; unfold tilerenderer.IMG_SIZE; lia.
    + do 3 (rewrite At_draw_quadrant_outside by (apply Point_In_false; cbn; lia)). apply At_NewNRGBA.
Qed.

End Properties.

(** ** Whole requests: what a call does at most, and what it leaves behind *)

(** The events of a call that does not compose: its entry and its lookup,
    followed by one call of the map block renderer when it is a fresh call at
    zoom 13 that got as far as rendering. *)
Definition flat_events (tc : coords.TileCoords.t) (cachedOnly : bool)
    (evs : list Event) : Prop :=
  evs = [EvRenderImage tc cachedOnly; EvGetTile tc]
  ∨ (cachedOnly = false ∧ coords.TileCoords.Zoom tc = 13
     ∧ ∃ pos1 pos2,
         evs = [EvRenderImage tc cachedOnly; EvGetTile tc; EvMapBlockRender pos1 pos2]).

(** The bounds of every tile image. *)
Definition tile_bounds : image.Rectangle :=
  image.mkRectangle (image.mkPoint 0 0)
    (image.mkPoint tilerenderer.IMG_SIZE tilerenderer.IMG_SIZE).

(** The quadrant a point of the tile lies in. *)
Definition quadrant_at (x y : Z) : option Quadrant :=
  if image.Point_In (image.mkPoint x y) tile_bounds
  then Some (if x <? 128
             then (if y <? 128 then UpperLeft else LowerLeft)
             else (if y <? 128 then UpperRight else LowerRight))
  else None.

Section Requests.

Context `{Imp : Imports} {DB : Type} `{Acc : !tiledb.DBAccessor DB}.

Implicit Types (tr : tilerenderer.TileRenderer) (tc : coords.TileCoords.t)
  (w : World DB) (evs : list Event).

Ltac unfold_run :=
  cbn [tilerenderer.RenderImage_fuel];
  unfold bind, emit, tdb_GetTile, tdb_SetTile, time_Now_Unix, ret, fail,
    tilerenderer.mapblockrenderer_Render.

Lemma lookups_app evs1 evs2 : lookups (evs1 ++ evs2) = lookups evs1 ++ lookups evs2.
Proof. apply omap_app. Qed.

Lemma flat_events_counts tc cachedOnly evs :
  flat_events tc cachedOnly evs →
  writes evs = [] ∧ calls evs = [(tc, cachedOnly)] ∧ lookups evs = [tc]
  ∧ (length (leaf_renders evs) ≤ 1)%nat
  ∧ (cachedOnly = true ∨ coords.TileCoords.Zoom tc ≠ 13 → leaf_renders evs = []).
Proof.
  intros [->|(-> & Hz & p1 & p2 & ->)]; cbn; split_and!; try done; try lia.
Qed.

(** A call that does not compose, with its events. *)
Lemma RenderImage_fuel_flat_events n tr tc cachedOnly w :
  cachedOnly = true ∨ coords.TileCoords.Zoom tc < 1 ∨ 12 < coords.TileCoords.Zoom tc →
  ∃ r evs,
    tilerenderer.RenderImage_fuel (S n) tr tc cachedOnly w = Some (r, w, evs)
    ∧ flat_events tc cachedOnly evs.
Proof.
  intros Hflat. destruct cachedOnly.
  { rewrite RenderImage_fuel_from_cache by (by left). eexists _, _. split; [done|by left]. }
  destruct (tiledb.GetTile (tdb w) tc) as [e|[t|]] eqn:Hmiss.
  1,2: rewrite RenderImage_fuel_from_cache by (right; congruence);
       eexists _, _; split; [done|by left].
  destruct Hflat as [?|Hz]; [done|].
  unfold_run. rewrite Hmiss. cbn beta iota zeta.
  destruct (tilerenderer.deref_layer _) as [l|];
    [|eexists _, _; split; [done|by left]].
  destruct (Z.gtb_spec (coords.TileCoords.Zoom tc) 13),
    (Z.ltb_spec (coords.TileCoords.Zoom tc) 1); cbn [orb];
    try (eexists _, _; split; [done|by left]).
  destruct (Z.eqb_spec (coords.TileCoords.Zoom tc) 13) as [Hz13|]; [|lia].
  eexists _, _. split; [done|]. right. split_and!; [done..|]. by eexists _, _.
Qed.

(** What a composing call is made of: its entry and lookup, the events of
    the children it got to, one after the other, and at the end the write of
    its tile when no child failed.  The children are flat calls either
    because the zoom is below 12 (they are cache-only) or because they are
    at zoom 13. *)
Lemma RenderImage_fuel_compose_events n tr tc w :
  coords.TileCoords.Zoom tc < 12 ∨ quadrants_one_zoom_finer →
  tiledb.GetTile (tdb w) tc = inr None →
  registered tr tc →
  1 ≤ coords.TileCoords.Zoom tc ≤ 12 →
  let flag := coords.TileCoords.Zoom tc <? 12 in
  ∃ r w' es tail,
    tilerenderer.RenderImage_fuel (S (S n)) tr tc false w
    = Some (r, w', [EvRenderImage tc false; EvGetTile tc] ++ concat es ++ tail)
    ∧ Forall2 (λ c e, flat_events c flag e) (take (length es) (children tc)) es
    ∧ (1 ≤ length es ≤ 4)%nat
    ∧ ((∃ e, r = Err e ∧ tail = [] ∧ w' = w)
       ∨ (∃ ul ur ll lr err,
            let img := tilerenderer.compose ul ur ll lr in
            let tile := tiledb.mkTile tc (png_Encode img) (clock w) in
            r = Ok (Some img) ∧ length es = 4%nat
            ∧ tail = [EvSetTile tile err]
            ∧ tiledb.SetTile (tdb w) tile = (tdb w', err)
            ∧ clock w' = clock w)).
Proof.
  intros Hfine Hmiss Hreg Hz flag.
  destruct (deref_layer_registered tr tc Hreg) as (l & Hl & _).
  assert (∀ child, child ∈ children tc → ∃ r evs,
    tilerenderer.RenderImage_fuel (S n) tr child flag w = Some (r, w, evs)
    ∧ flat_events child flag evs) as Hflat.
  { intros child Hchild. apply RenderImage_fuel_flat_events. unfold flag.
    destruct (Z.ltb_spec (coords.TileCoords.Zoom tc) 12); [by left|right; right].
    destruct Hfine as [?|Hq]; [lia|].
    specialize (Hq tc). simpl in Hq. destruct Hq as (H1 & H2 & H3 & H4).
    unfold children in Hchild.
    repeat (apply elem_of_cons in Hchild as [->|Hchild]; [lia|]).
    by apply elem_of_nil in Hchild. }
  unfold children in *.
  destruct (Hflat (coords.TileQuadrants.UpperLeft (GetZoomedQuadrantsFromTile tc)))
    as (r1 & e1 & Hr1 & Hf1); [by repeat constructor|].
  destruct (Hflat (coords.TileQuadrants.UpperRight (GetZoomedQuadrantsFromTile tc)))
    as (r2 & e2 & Hr2 & Hf2); [by repeat constructor|].
  destruct (Hflat (coords.TileQuadrants.LowerLeft (GetZoomedQuadrantsFromTile tc)))
    as (r3 & e3 & Hr3 & Hf3); [by repeat constructor|].
  destruct (Hflat (coords.TileQuadrants.LowerRight (GetZoomedQuadrantsFromTile tc)))
    as (r4 & e4 & Hr4 & Hf4); [by repeat constructor|].
  clear Hflat. remember (S n) as m eqn:Hm.
  unfold_run. rewrite Hmiss. cbn beta iota zeta. rewrite Hl.
  destruct (Z.gtb_spec (coords.TileCoords.Zoom tc) 13); [lia|].
  destruct (Z.ltb_spec (coords.TileCoords.Zoom tc) 1); [lia|].
  destruct (Z.eqb_spec (coords.TileCoords.Zoom tc) 13); [lia|].
  cbn [orb]. fold flag. rewrite Hr1. destruct r1 as [ul|err].
  2:{ exists (Err err), w, [e1], []. cbn. rewrite !app_nil_r.
      split_and!; [done|repeat (constructor; [assumption|]); constructor|lia..|left; by eexists]. }
  rewrite Hr2. destruct r2 as [ur|err].
  2:{ exists (Err err), w, [e1; e2], []. cbn. rewrite !app_nil_r.
      split_and!; [done|repeat (constructor; [assumption|]); constructor|lia..|left; by eexists]. }
  rewrite Hr3. destruct r3 as [ll|err].
  2:{ exists (Err err), w, [e1; e2; e3], []. cbn. rewrite !app_nil_r.
      split_and!; [done|repeat (constructor; [assumption|]); constructor|lia..|left; by eexists]. }
  rewrite Hr4. destruct r4 as [lr|err].
  2:{ exists (Err err), w, [e1; e2; e3; e4], []. cbn. rewrite !app_nil_r.
      split_and!; [done|repeat (constructor; [assumption|]); constructor|lia..|left; by eexists]. }
  destruct (tiledb.SetTile (tdb w)
              (tiledb.mkTile tc (png_Encode (tilerenderer.compose ul ur ll lr)) (clock w)))
    as [db' err] eqn:Hset.
  exists (Ok (Some (tilerenderer.compose ul ur ll lr))), (mkWorld db' (clock w)),
    [e1; e2; e3; e4],
    [EvSetTile (tiledb.mkTile tc (png_Encode (tilerenderer.compose ul ur ll lr)) (clock w))
       err].
  cbn. rewrite !app_nil_r, <- !app_assoc.
  split_and!; [done|repeat (constructor; [assumption|]); constructor|lia..|].
  right. exists ul, ur, ll, lr, err. by split_and!.
Qed.

(** The events of a row of flat calls, counted. *)
Lemma flat_row_counts (flag : bool) (cs : list coords.TileCoords.t) (es : list (list Event)) :
  Forall2 (λ c e, flat_events c flag e) cs es →
  writes (concat es) = []
  ∧ calls (concat es) = (λ c, (c, flag)) <$> cs
  ∧ lookups (concat es) = cs
  ∧ (length (leaf_renders (concat es)) ≤ length es)%nat
  ∧ (flag = true → leaf_renders (concat es) = []).
Proof.
  induction 1 as [|c e cs es Hflat _ IH]; [done|].
  destruct IH as (IHw & IHc & IHl & IHr & IHf).
  destruct (flat_events_counts _ _ _ Hflat) as (Hw & Hc & Hl & Hr & Hf).
  cbn [concat]. rewrite writes_app, calls_app, lookups_app, leaf_renders_app.
  rewrite Hw, Hc, Hl, IHw, IHc, IHl. split_and!; try done.
  - rewrite length_app. cbn [length]. lia.
  - intros ->. rewrite Hf by (by left). by rewrite IHf.
Qed.

Lemma leaf_renders_lookup tc evs :
  leaf_renders (EvGetTile tc :: evs) = leaf_renders evs.
Proof. reflexivity. Qed.

Lemma writes_lookup tc evs : writes (EvGetTile tc :: evs) = writes evs.
Proof. reflexivity. Qed.

(** [Render] when the lookup of the address fails. *)
Lemma Render_lookup_error tr tc w e :
  tiledb.GetTile (tdb w) tc = inl e →
  tilerenderer.Render tr tc w = Some (Err (CacheIOError e), w, [EvGetTile tc]).
Proof.
  intros Hget. unfold tilerenderer.Render.
  generalize (tilerenderer.RenderImage tr tc false). intros run.
  unfold bind, tdb_GetTile. by rewrite Hget.
Qed.

(** Every call of [RenderImage] returns, and its events have one of two
    shapes: those of a flat call, with the world unchanged, or those of a
    composing call. *)
Lemma RenderImage_events tr tc cachedOnly w :
  coords.TileCoords.Zoom tc ≠ 12 ∨ quadrants_one_zoom_finer →
  ∃ r w' evs,
    tilerenderer.RenderImage tr tc cachedOnly w = Some (r, w', evs)
    ∧ ((flat_events tc cachedOnly evs ∧ w' = w)
       ∨ (cachedOnly = false ∧ 1 ≤ coords.TileCoords.Zoom tc ≤ 12
          ∧ ∃ es tail,
              evs = [EvRenderImage tc false; EvGetTile tc] ++ concat es ++ tail
              ∧ Forall2 (λ c e, flat_events c (coords.TileCoords.Zoom tc <? 12) e)
                  (take (length es) (children tc)) es
              ∧ (1 ≤ length es ≤ 4)%nat
              ∧ ((∃ e, r = Err e ∧ tail = [] ∧ w' = w)
                 ∨ (∃ ul ur ll lr err,
                      let img := tilerenderer.compose ul ur ll lr in
                      let tile := tiledb.mkTile tc (png_Encode img) (clock w) in
                      r = Ok (Some img) ∧ length es = 4%nat
                      ∧ tail = [EvSetTile tile err]
                      ∧ tiledb.SetTile (tdb w) tile = (tdb w', err)
                      ∧ clock w' = clock w)))).
Proof.
  intros Hfine. unfold tilerenderer.RenderImage, tilerenderer.MAX_DEPTH.
  destruct (decide (cachedOnly = true ∨ coords.TileCoords.Zoom tc < 1
                    ∨ 12 < coords.TileCoords.Zoom tc)) as [Hflat|Hcomp].
  { destruct (RenderImage_fuel_flat_events 12 tr tc cachedOnly w Hflat)
      as (r & evs & Hrun & Hev).
    exists r, w, evs. split; [done|]. by left. }
  assert (cachedOnly = false) as -> by (destruct cachedOnly; tauto).
  assert (1 ≤ coords.TileCoords.Zoom tc ≤ 12) as Hz by lia.
  destruct (tiledb.GetTile (tdb w) tc) as [e|[t|]] eqn:Hmiss.
  1,2: rewrite RenderImage_fuel_from_cache by (right; congruence);
       eexists _, _, _; split; [done|]; left; split; [by left|done].
  destruct (registered_dec tr tc) as [Hreg|Hreg].
  2:{ rewrite RenderImage_fuel_no_layer by done.
      eexists _, _, _. split; [done|]. left. split; [by left|done]. }
  destruct (RenderImage_fuel_compose_events 11 tr tc w) as (r & w' & es & tail & Hrun & H);
    [destruct Hfine; [left; lia|by right]|done..|].
  exists r, w', ([EvRenderImage tc false; EvGetTile tc] ++ concat es ++ tail).
  split; [done|]. right. split_and!; [done|lia..|].
  exists es, tail. split; [done|]. exact H.
Qed.

(** *** The work of one request is bounded *)

(** X1.  With children one zoom level finer, every call of [RenderImage]
    returns, and it has then entered [RenderImage] at most five times (itself
    and its four children), looked up at most five addresses, called the map
    block renderer at most four times and tried at most one write; a tile it
    writes is under the address of the call and carries the time of the
    call. *)
Theorem RenderImage_bounded_work tr tc cachedOnly w :
  quadrants_one_zoom_finer →
  ∃ r w' evs,
    tilerenderer.RenderImage tr tc cachedOnly w = Some (r, w', evs)
    ∧ (length (calls evs) ≤ 5)%nat
    ∧ (length (lookups evs) ≤ 5)%nat
    ∧ (length (leaf_renders evs) ≤ 4)%nat
    ∧ (length (writes evs) ≤ 1)%nat
    ∧ (∀ t, t ∈ writes evs → tiledb.Pos t = tc ∧ tiledb.Mtime t = clock w).
Proof.
  intros Hq.
  destruct (RenderImage_events tr tc cachedOnly w (or_intror Hq))
    as (r & w' & evs & Hrun & Hshape).
  exists r, w', evs. split; [done|].
  destruct Hshape as [[Hflat _]|(-> & Hz & es & tail & -> & Hrow & Hlen & Htail)].
  - destruct (flat_events_counts _ _ _ Hflat) as (Hw & Hc & Hl & Hr & _).
    rewrite Hw, Hc, Hl. cbn. split_and!; try lia.
    intros t Ht. by apply elem_of_nil in Ht.
  - destruct (flat_row_counts _ _ _ Hrow) as (Hw & Hc & Hl & Hr & _).
    rewrite !calls_app, !lookups_app, !leaf_renders_app, !writes_app.
    rewrite Hw, Hc, Hl. cbn [calls lookups leaf_renders writes omap app length].
    assert (length (take (length es) (children tc)) ≤ 4)%nat as Htake.
    { rewrite length_take. lia. }
    destruct Htail as [(e & -> & -> & _)
                      |(ul & ur & ll & lr & err & Htail)].
    + cbn. rewrite !app_nil_r, length_fmap. split_and!; try lia.
      intros t Ht. by apply elem_of_nil in Ht.
    + cbn zeta in Htail. destruct Htail as (_ & _ & -> & _ & _).
      cbn. rewrite !length_app, length_fmap. cbn. split_and!; try lia.
      intros t Ht. apply list_elem_of_singleton in Ht as ->. done.
Qed.

(** X2.  For every address whose zoom is neither 12 nor 13, whatever the
    cache holds and whatever the layers are, [Render] returns without calling
    the map block renderer: tiles at zoom 11 and coarser are only ever
    assembled from the cache. *)
Theorem Render_coarse_never_renders tr tc w :
  coords.TileCoords.Zoom tc ≠ 12 →
  coords.TileCoords.Zoom tc ≠ 13 →
  ∃ r w' evs,
    tilerenderer.Render tr tc w = Some (r, w', evs) ∧ leaf_renders evs = [].
Proof.
  intros H12 H13.
  destruct (tiledb.GetTile (tdb w) tc) as [e|[t|]] eqn:Hget.
  { rewrite (Render_lookup_error tr tc w e Hget). by eexists _, _, _. }
  { rewrite (Render_hit tr tc w t Hget). by eexists _, _, _. }
  rewrite (Render_miss tr tc w Hget).
  destruct (RenderImage_events tr tc false w (or_introl H12))
    as (r & w' & evs & -> & Hshape).
  assert (leaf_renders evs = []) as Hno.
  { destruct Hshape as [[Hflat _]|(_ & Hz & es & tail & -> & Hrow & _ & Htail)].
    - destruct (flat_events_counts _ _ _ Hflat) as (_ & _ & _ & _ & Hr).
      apply Hr. by right.
    - destruct (flat_row_counts _ _ _ Hrow) as (_ & _ & _ & _ & Hr).
      rewrite !leaf_renders_app, Hr.
      + destruct Htail as [(e & _ & -> & _)|(ul & ur & ll & lr & err & Htail)];
          [done|].
        cbn zeta in Htail. by destruct Htail as (_ & _ & -> & _).
      + apply Z.ltb_lt. lia. }
  destruct r as [[img|]|e]; eexists _, _, _; (split; [done|]);
    rewrite leaf_renders_lookup, ?leaf_renders_app, Hno; done.
Qed.

(** *** What a request leaves in the cache *)

(** X3.  With children one zoom level finer, a call of [Render] that returns
    an error has not written to the cache: no write was tried and the world
    is as it was. *)
Theorem Render_error_leaves_cache tr tc w e w' evs :
  quadrants_one_zoom_finer →
  tilerenderer.Render tr tc w = Some (Err e, w', evs) →
  w' = w ∧ writes evs = [].
Proof.
  intros Hq Hrun.
  destruct (tiledb.GetTile (tdb w) tc) as [e0|[t|]] eqn:Hget.
  { rewrite (Render_lookup_error tr tc w e0 Hget) in Hrun. by injection Hrun as <- <- <-. }
  { by rewrite (Render_hit tr tc w t Hget) in Hrun. }
  rewrite (Render_miss tr tc w Hget) in Hrun.
  destruct (RenderImage_events tr tc false w (or_intror Hq))
    as (r & w0 & evs0 & Himg & Hshape).
  rewrite Himg in Hrun. destruct r as [[img|]|e0]; [done..|].
  injection Hrun as <- <- <-.
  destruct Hshape as [[Hflat ->]|(_ & Hz & es & tail & -> & Hrow & _ & Htail)].
  - destruct (flat_events_counts _ _ _ Hflat) as (Hw & _). split; [done|].
    by rewrite writes_lookup, Hw.
  - destruct (flat_row_counts _ _ _ Hrow) as (Hw & _).
    destruct Htail as [(e1 & _ & -> & ->)|(ul & ur & ll & lr & err & Htail)].
    + split; [done|]. by rewrite writes_lookup, !writes_app, Hw.
    + cbn zeta in Htail. by destruct Htail as (? & _).
Qed.

(** X4.  With children one zoom level finer, when [Render] answers bytes for
    an address that was not cached and is not at zoom 13, those bytes are
    what it handed to the cache: the one write of the call is the tile of
    the address with exactly the bytes returned and the time of the call. *)
Theorem Render_fresh_bytes_cached tr tc w b w' evs :
  quadrants_one_zoom_finer →
  tiledb.GetTile (tdb w) tc = inr None →
  coords.TileCoords.Zoom tc ≠ 13 →
  tilerenderer.Render tr tc w = Some (Ok b, w', evs) →
  writes evs = [tiledb.mkTile tc b (clock w)]
  ∧ ∃ err, tiledb.SetTile (tdb w) (tiledb.mkTile tc b (clock w)) = (tdb w', err).
Proof.
  intros Hq Hget H13 Hrun.
  rewrite (Render_miss tr tc w Hget) in Hrun.
  destruct (RenderImage_events tr tc false w (or_intror Hq))
    as (r & w0 & evs0 & Himg & Hshape).
  rewrite Himg in Hrun.
  destruct Hshape as [[Hflat ->]|(_ & Hz & es & tail & -> & Hrow & _ & Htail)].
  - destruct r as [r|e]; [|done].
    destruct (RenderImage_compose_Ok tr tc w r w evs0 Hget H13 Himg)
      as (img & w1 & pre & err & _ & _ & ->).
    destruct (flat_events_counts _ _ _ Hflat) as (Hw & _).
    rewrite writes_app in Hw. by apply app_eq_nil in Hw as [_ Hw].
  - destruct (flat_row_counts _ _ _ Hrow) as (Hw & _).
    destruct Htail as [(e1 & -> & _)|(ul & ur & ll & lr & err & Htail)]; [done|].
    cbn zeta in Htail. destruct Htail as (-> & _ & -> & Hset & _).
    injection Hrun as <- <- <-. split; [|by exists err].
    match goal with
    | |- writes (_ :: _ :: _ :: ?l) = ?r => change (writes l = r)
    end.
    by rewrite !writes_app, Hw.
Qed.

(** *** The finest zoom *)

(** X5.  For an address at zoom 13 that is not cached and whose layer id is
    registered, [Render] calls the map block renderer once, for the block
    range of the tile with the vertical bounds of the last layer of the
    list, and answers its result: its error as it is, the empty answer when
    it has no image, the encoded image otherwise.  The cache is not
    written. *)
Theorem Render_zoom13_fresh tr tc w l :
  tiledb.GetTile (tdb w) tc = inr None →
  registered tr tc →
  last (tilerenderer.layers tr) = Some l →
  coords.TileCoords.Zoom tc = 13 →
  let mbr := GetMapBlockRangeFromTile tc 0 in
  let pos1 := coords.MapBlockCoords.mk
                (coords.MapBlockCoords.X (coords.MapBlockRange.Pos1 mbr))
                (layer.From l)
                (coords.MapBlockCoords.Z (coords.MapBlockRange.Pos1 mbr)) in
  let pos2 := coords.MapBlockCoords.mk
                (coords.MapBlockCoords.X (coords.MapBlockRange.Pos2 mbr))
                (layer.To l)
                (coords.MapBlockCoords.Z (coords.MapBlockRange.Pos2 mbr)) in
  tilerenderer.Render tr tc w
  = Some (match tilerenderer.mapblockrenderer tr pos1 pos2 with
          | inl e => Err (RenderError e)
          | inr None => Ok []
          | inr (Some img) => Ok (png_Encode img)
          end, w,
          [EvGetTile tc; EvRenderImage tc false; EvGetTile tc;
           EvMapBlockRender pos1 pos2]).
Proof.
  intros Hget Hreg Hlast Hz mbr pos1 pos2.
  rewrite (Render_miss tr tc w Hget).
  unfold tilerenderer.RenderImage, tilerenderer.MAX_DEPTH.
  rewrite (RenderImage_fuel_leaf 12 tr tc w l Hget Hreg Hlast Hz).
  unfold leaf_result, leaf_range. cbn [fst snd]. fold mbr. fold pos1. fold pos2.
  by destruct (tilerenderer.mapblockrenderer tr pos1 pos2) as [e|[img|]].
Qed.

(** A decoded image redrawn on a new tile: the decoded image inside the
    bounds of the tile, nothing outside. *)
Lemma At_redrawn cachedimg x y :
  image.At (draw.Draw (image.NewNRGBA tile_bounds) tile_bounds cachedimg image.ZP) x y
  = if image.Point_In (image.mkPoint x y) tile_bounds
    then image.At cachedimg x y
    else color.zero.
Proof.
  rewrite At_Draw, At_NewNRGBA. cbn [image.Bounds image.NewNRGBA image.ZP image.X image.Y
    image.Min tile_bounds]. rewrite !Z.add_0_l, !Z.sub_0_r. fold tile_bounds.
  destruct (image.Point_In (image.mkPoint x y) tile_bounds); cbn [andb]; [|done].
  destruct (image.Point_In _ (image.Bounds cachedimg)) eqn:Hin; [done|].
  unfold image.At. by rewrite Hin.
Qed.

(** *** Answers from the cache *)

(** X6.  When the address has an entry that decodes, [RenderImage] answers
    it without looking at the zoom or the layers, for both values of
    [cachedOnly]: the image returned has the bounds of a tile and shows the
    decoded image inside them (nothing where the decoded image has no
    pixel); the world is unchanged and all it does is the lookup. *)
Theorem RenderImage_cached_image tr tc cachedOnly w t cachedimg :
  tiledb.GetTile (tdb w) tc = inr (Some t) →
  png_Decode (tiledb.Data t) = inr cachedimg →
  ∃ img,
    tilerenderer.RenderImage tr tc cachedOnly w
    = Some (Ok (Some img), w, [EvRenderImage tc cachedOnly; EvGetTile tc])
    ∧ image.Bounds img = tile_bounds
    ∧ ∀ x y, image.At img x y
             = if image.Point_In (image.mkPoint x y) tile_bounds
               then image.At cachedimg x y
               else color.zero.
Proof.
  intros Hget Hdec. unfold tilerenderer.RenderImage, tilerenderer.MAX_DEPTH.
  rewrite RenderImage_fuel_from_cache by (right; congruence).
  unfold from_cache. rewrite Hget, Hdec. cbn zeta.
  eexists. split; [done|]. split; [done|]. apply At_redrawn.
Qed.

(** X7.  A fresh call at a zoom in 1..11 with a registered layer composes
    what the cache holds for the four children and nothing else: when the
    four lookups succeed (an absent child counts as empty), the call returns
    the composite of the four cached results, hands its encoding to
    [SetTile] under its own address with the time of the call, and does not
    call the map block renderer. *)
Theorem RenderImage_from_cached_children tr tc w ul ur ll lr :
  1 ≤ coords.TileCoords.Zoom tc ≤ 11 →
  tiledb.GetTile (tdb w) tc = inr None →
  registered tr tc →
  let quads := GetZoomedQuadrantsFromTile tc in
  from_cache (tdb w) (coords.TileQuadrants.UpperLeft quads) = Ok ul →
  from_cache (tdb w) (coords.TileQuadrants.UpperRight quads) = Ok ur →
  from_cache (tdb w) (coords.TileQuadrants.LowerLeft quads) = Ok ll →
  from_cache (tdb w) (coords.TileQuadrants.LowerRight quads) = Ok lr →
  let img := tilerenderer.compose ul ur ll lr in
  let tile := tiledb.mkTile tc (png_Encode img) (clock w) in
  tilerenderer.RenderImage tr tc false w
  = Some (Ok (Some img),
          mkWorld (fst (tiledb.SetTile (tdb w) tile)) (clock w),
          EvRenderImage tc false :: EvGetTile tc
          :: (children tc ≫= λ c, [EvRenderImage c true; EvGetTile c])
          ++ [EvSetTile tile (snd (tiledb.SetTile (tdb w) tile))]).
Proof.
  intros Hz Hget Hreg quads Hul Hur Hll Hlr img tile.
  destruct (deref_layer_registered tr tc Hreg) as (l & Hl & _).
  unfold tilerenderer.RenderImage, tilerenderer.MAX_DEPTH.
  generalize 11%nat. intros n.
  assert (∀ c, tilerenderer.RenderImage_fuel (S n) tr c true w
               = Some (from_cache (tdb w) c, w, [EvRenderImage c true; EvGetTile c]))
    as Hchild.
  { intros c. by rewrite RenderImage_fuel_from_cache by (by left). }
  remember (S n) as m eqn:Hm.
  unfold_run. rewrite Hget. cbn beta iota zeta. rewrite Hl.
  destruct (Z.gtb_spec (coords.TileCoords.Zoom tc) 13); [lia|].
  destruct (Z.ltb_spec (coords.TileCoords.Zoom tc) 1); [lia|].
  destruct (Z.eqb_spec (coords.TileCoords.Zoom tc) 13); [lia|].
  destruct (Z.ltb_spec (coords.TileCoords.Zoom tc) 12); [|lia].
  cbn beta iota zeta delta [orb]. fold quads.
  rewrite Hchild, Hul. cbn beta iota zeta.
  rewrite Hchild, Hur. cbn beta iota zeta.
  rewrite Hchild, Hll. cbn beta iota zeta.
  rewrite Hchild, Hlr. cbn beta iota zeta.
  fold img. fold tile.
  destruct (tiledb.SetTile (tdb w) tile) as [db' err].
  unfold children. fold quads. simpl. reflexivity.
Qed.

(** *** The composite, pixel by pixel *)

Lemma Bounds_compose ul ur ll lr :
  image.Bounds (tilerenderer.compose ul ur ll lr) = tile_bounds.
Proof. unfold tilerenderer.compose. by rewrite !Bounds_draw_quadrant. Qed.

Lemma At_compose_quadrant ul ur ll lr q x y :
  image.Point_In (image.mkPoint x y) (quadrant_rect q) = true →
  image.At (tilerenderer.compose ul ur ll lr) x y
  = match child_of q ul ur ll lr with
    | Some c =>
        image.At (imaging_Resize c 128 128)
          (x - image.X (image.Min (quadrant_rect q)))
          (y - image.Y (image.Min (quadrant_rect q)))
    | None => color.zero
    end.
Proof.
  intros Hin. apply Point_In_spec in Hin. unfold tilerenderer.compose.
  assert (∀ img rect child,
            ¬ (image.X (image.Min rect) ≤ x < image.X (image.Max rect)
               ∧ image.Y (image.Min rect) ≤ y < image.Y (image.Max rect)) →
            image.At (tilerenderer.draw_quadrant img rect child) x y = image.At img x y)
    as Hout.
  { intros img rect child Hn. apply At_draw_quadrant_outside. by apply Point_In_false. }
  assert (∀ img rect child,
            image.X (image.Min rect) ≤ x < image.X (image.Max rect)
            ∧ image.Y (image.Min rect) ≤ y < image.Y (image.Max rect) →
            image.Bounds img = tile_bounds →
            image.At img x y = color.zero →
            0 ≤ x < 256 ∧ 0 ≤ y < 256 →
            image.At (tilerenderer.draw_quadrant img rect child) x y
            = match child with
              | Some c => image.At (imaging_Resize c 128 128)
                            (x - image.X (image.Min rect)) (y - image.Y (image.Min rect))
              | None => color.zero
              end) as Hins.
  { intros img rect child Hr Hb Hzero Htile. apply At_draw_quadrant_inside; [| |done].
    - by apply Point_In_spec.
    - rewrite Hb. by apply Point_In_spec. }
  destruct q; cbn in Hin; cbn [child_of quadrant_rect].
  - rewrite 3 Hout by (cbn; lia).
    apply Hins; [cbn; lia|done|apply At_NewNRGBA|lia].
  - rewrite 2 Hout by (cbn; lia).
    apply Hins; [cbn; lia|by rewrite Bounds_draw_quadrant| |lia].
    rewrite Hout by (cbn; lia). apply At_NewNRGBA.
  - rewrite Hout by (cbn; lia).
    apply Hins; [cbn; lia|by rewrite !Bounds_draw_quadrant| |lia].
    rewrite 2 Hout by (cbn; lia). apply At_NewNRGBA.
  - apply Hins; [cbn; lia|by rewrite !Bounds_draw_quadrant| |lia].
    rewrite 3 Hout by (cbn; lia). apply At_NewNRGBA.
Qed.

(** X8.  The composite is a full description of the four children: it has
    the bounds of a tile; every point of the tile lies in exactly one of the
    four quadrants and shows there the resized child of that quadrant, or
    nothing when that child is empty, so that no child shows through in the
    quadrant of another; outside the tile there is nothing. *)
Theorem compose_pixels ul ur ll lr :
  image.Bounds (tilerenderer.compose ul ur ll lr) = tile_bounds
  ∧ (∀ x y q, quadrant_at x y = Some q
              ↔ image.Point_In (image.mkPoint x y) (quadrant_rect q) = true)
  ∧ ∀ x y,
      image.At (tilerenderer.compose ul ur ll lr) x y
      = match quadrant_at x y with
        | Some q =>
            match child_of q ul ur ll lr with
            | Some c =>
                image.At (imaging_Resize c 128 128)
                  (x - image.X (image.Min (quadrant_rect q)))
                  (y - image.Y (image.Min (quadrant_rect q)))
            | None => color.zero
            end
        | None => color.zero
        end.
Proof.
  assert (∀ x y q, quadrant_at x y = Some q
                   ↔ image.Point_In (image.mkPoint x y) (quadrant_rect q) = true)
    as Hquad.
  { intros x y q. rewrite Point_In_spec. unfold quadrant_at.
    destruct (image.Point_In (image.mkPoint x y) tile_bounds) eqn:Htile.
    - apply Point_In_spec in Htile. cbn in Htile. unfold tilerenderer.IMG_SIZE in Htile.
      destruct (Z.ltb_spec x 128), (Z.ltb_spec y 128), q; cbn;
        split; try done; try lia; intros [= ]; lia.
    - apply not_true_iff_false in Htile. rewrite Point_In_spec in Htile.
      cbn in Htile. unfold tilerenderer.IMG_SIZE in Htile.
      split; [done|]. destruct q; cbn; lia. }
  split; [apply Bounds_compose|]. split; [exact Hquad|].
  intros x y. destruct (quadrant_at x y) as [q|] eqn:Hq.
  - apply At_compose_quadrant. by apply Hquad.
  - unfold image.At. rewrite Bounds_compose.
    unfold quadrant_at in Hq.
    by destruct (image.Point_In (image.mkPoint x y) tile_bounds).
Qed.

(** *** Reading back what was written *)

(** The structure of a composing call that succeeded, at the level of
    [RenderImage]. *)
Lemma RenderImage_fuel_compose_Ok_image n tr tc w r w' evs :
  tiledb.GetTile (tdb w) tc = inr None →
  coords.TileCoords.Zoom tc ≠ 13 →
  tilerenderer.RenderImage_fuel (S n) tr tc false w = Some (Ok r, w', evs) →
  ∃ ul ur ll lr w0 pre err,
    let img := tilerenderer.compose ul ur ll lr in
    let tile := tiledb.mkTile tc (png_Encode img) (clock w0) in
    r = Some img
    ∧ tiledb.SetTile (tdb w0) tile = (tdb w', err)
    ∧ evs = pre ++ [EvSetTile tile err].
Proof.
  intros Hmiss Hz. unfold_run. rewrite Hmiss. simpl.
  destruct (tilerenderer.deref_layer _) as [l|]; [|done].
  destruct (_ || _); [done|].
  destruct (Z.eqb_spec (coords.TileCoords.Zoom tc) 13); [done|].
  destruct (tilerenderer.RenderImage_fuel n tr _ _ w)
    as [[[[ul|?] w1] e1]|]; [|done..].
  destruct (tilerenderer.RenderImage_fuel n tr _ _ w1)
    as [[[[ur|?] w2] e2]|]; [|done..].
  destruct (tilerenderer.RenderImage_fuel n tr _ _ w2)
    as [[[[ll|?] w3] e3]|]; [|done..].
  destruct (tilerenderer.RenderImage_fuel n tr _ _ w3)
    as [[[[lr|?] w4] e4]|]; [|done..].
  destruct (tiledb.SetTile (tdb w4) _) as [db' err] eqn:Hset.
  intros [= <- <- <-].
  exists ul, ur, ll, lr, w4,
    ([EvRenderImage tc false; EvGetTile tc] ++ e1 ++ e2 ++ e3 ++ e4), err.
  simpl. repeat split; [done|]. by rewrite <- !app_assoc.
Qed.

Lemma RenderImage_compose_Ok_image tr tc w r w' evs :
  tiledb.GetTile (tdb w) tc = inr None →
  coords.TileCoords.Zoom tc ≠ 13 →
  tilerenderer.RenderImage tr tc false w = Some (Ok r, w', evs) →
  ∃ ul ur ll lr w0 pre err,
    let img := tilerenderer.compose ul ur ll lr in
    let tile := tiledb.mkTile tc (png_Encode img) (clock w0) in
    r = Some img
    ∧ tiledb.SetTile (tdb w0) tile = (tdb w', err)
    ∧ evs = pre ++ [EvSetTile tile err].
Proof. exact (RenderImage_fuel_compose_Ok_image 12 tr tc w r w' evs). Qed.

(** X9.  Over a database that keeps what it accepts: after a fresh call has
    composed an image for an address that is not at zoom 13 and its write
    was accepted, a later call for the same address, cache-only or not,
    answers from the entry written, with a single lookup.  When the decoder
    gives back the pixels the encoder was given, the image answered shows
    the same pixels as the image composed. *)
Theorem RenderImage_reads_back tr tc w img w' evs cachedOnly decoded :
  tiledb.DBAccessorLaws DB →
  tiledb.GetTile (tdb w) tc = inr None →
  coords.TileCoords.Zoom tc ≠ 13 →
  tilerenderer.RenderImage tr tc false w = Some (Ok (Some img), w', evs) →
  (∀ t err, EvSetTile t err ∈ evs → err = None) →
  png_Decode (png_Encode img) = inr decoded →
  (∀ x y, image.At decoded x y = image.At img x y) →
  ∃ img',
    tilerenderer.RenderImage tr tc cachedOnly w'
    = Some (Ok (Some img'), w', [EvRenderImage tc cachedOnly; EvGetTile tc])
    ∧ ∀ x y, image.At img' x y = image.At img x y.
Proof.
  intros Hlaws Hmiss Hz Hrun Hacc Hdec Hsame.
  apply RenderImage_compose_Ok_image in Hrun
    as (ul & ur & ll & lr & w0 & pre & err & Hrun); [|done..].
  cbn zeta in Hrun. destruct Hrun as (Himg & Hset & ->).
  injection Himg as ->.
  assert (err = None) as ->.
  { eapply Hacc. apply elem_of_app. right. by apply list_elem_of_singleton. }
  pose proof (tiledb.GetTile_SetTile_eq _ _ _ Hset) as Hget. cbn in Hget.
  unfold tilerenderer.RenderImage, tilerenderer.MAX_DEPTH.
  rewrite RenderImage_fuel_from_cache by (right; congruence).
  unfold from_cache. rewrite Hget. cbn [tiledb.Data]. rewrite Hdec. cbn zeta.
  eexists. split; [done|]. intros x y.
  fold tile_bounds. rewrite At_redrawn, Hsame.
  destruct (image.Point_In (image.mkPoint x y) tile_bounds) eqn:Hin; [done|].
  unfold image.At. by rewrite Bounds_compose, Hin.
Qed.

(** X10.  Over a database that keeps what it accepts, with children one zoom
    level finer: a call of [Render] whose writes, if any, were accepted
    leaves the entry of every other address as it was. *)
Theorem Render_other_entries_kept tr tc w r w' evs tc' :
  tiledb.DBAccessorLaws DB →
  quadrants_one_zoom_finer →
  tilerenderer.Render tr tc w = Some (r, w', evs) →
  (∀ t err, EvSetTile t err ∈ evs → err = None) →
  tc' ≠ tc →
  tiledb.GetTile (tdb w') tc' = tiledb.GetTile (tdb w) tc'.
Proof.
  intros Hlaws Hq Hrun Hacc Hne.
  destruct (tiledb.GetTile (tdb w) tc) as [e0|[t|]] eqn:Hget.
  { rewrite (Render_lookup_error tr tc w e0 Hget) in Hrun. by injection Hrun as <- <- <-. }
  { rewrite (Render_hit tr tc w t Hget) in Hrun. by injection Hrun as <- <- <-. }
  rewrite (Render_miss tr tc w Hget) in Hrun.
  destruct (RenderImage_events tr tc false w (or_intror Hq))
    as (r0 & w0 & evs0 & Himg & Hshape).
  rewrite Himg in Hrun.
  assert (w' = w0 ∧ ∀ t err, EvSetTile t err ∈ evs0 → err = None) as [-> Hacc0].
  { destruct r0 as [[img|]|e0]; injection Hrun as <- <- <-; (split; [done|]);
      intros t err Hin; apply (Hacc t err); apply elem_of_cons; right;
      rewrite ?app_nil_r; done. }
  destruct Hshape as [[_ ->]|(_ & Hz & es & tail & -> & _ & _ & Htail)]; [done|].
  destruct Htail as [(e1 & _ & _ & ->)|(ul & ur & ll & lr & err & Htail)]; [done|].
  cbn zeta in Htail. destruct Htail as (_ & _ & -> & Hset & _).
  assert (err = None) as ->.
  { eapply Hacc0. apply elem_of_app. right. apply elem_of_app. right.
    by apply list_elem_of_singleton. }
  by apply (tiledb.GetTile_SetTile_ne _ _ _ tc' Hset).
Qed.

(** *** The empty answer *)

(** X11.  With an encoder that writes something for every composite (an
    image of 256 by 256): when [Render] answers the empty tile for an
    address that was not cached, the address is at zoom 13, where the answer
    is whatever the map block renderer gave, and nothing was written to the
    cache.  A composed tile is never answered as empty. *)
Theorem Render_empty_only_at_zoom13 tr tc w w' evs :
  (∀ ul ur ll lr, png_Encode (tilerenderer.compose ul ur ll lr) ≠ []) →
  tiledb.GetTile (tdb w) tc = inr None →
  tilerenderer.Render tr tc w = Some (Ok [], w', evs) →
  coords.TileCoords.Zoom tc = 13 ∧ w' = w ∧ writes evs = [].
Proof.
  intros Henc Hget Hrun. rewrite (Render_miss tr tc w Hget) in Hrun.
  destruct (decide (coords.TileCoords.Zoom tc = 13)) as [Hz|Hz].
  - split; [done|].
    destruct (RenderImage_events tr tc false w) as (r & w0 & evs0 & Himg & Hshape);
      [left; lia|].
    destruct Hshape as [[Hflat ->]|(_ & ? & _)]; [|lia].
    destruct (flat_events_counts _ _ _ Hflat) as (Hw & _).
    rewrite Himg in Hrun.
    destruct r as [[img|]|e]; [| |done].
    + injection Hrun as _ <- <-. split; [done|].
      by rewrite writes_lookup, writes_app, Hw.
    + injection Hrun as <- <-. split; [done|].
      by rewrite writes_lookup, writes_app, Hw.
  - destruct (tilerenderer.RenderImage tr tc false w) as [[[[r|e] w0] evs0]|] eqn:Himg;
      [|done..].
    apply RenderImage_compose_Ok_image in Himg
      as (ul & ur & ll & lr & w1 & pre & err & Himg); [|done..].
    cbn zeta in Himg. destruct Himg as (-> & _).
    injection Hrun as Hb _ _. by apply Henc in Hb.
Qed.

End Requests.

(** ** Runs on the concrete instance *)

Import Sample.

Lemma MemDB_laws : tiledb.DBAccessorLaws Sample.MemDB.
Proof.
  split.
  - intros db t db'. cbn. destruct (Sample.writable db); [|done].
    intros [= <-]. cbn. by rewrite lookup_insert_eq.
  - intros db t db' tc. cbn. destruct (Sample.writable db); [|done].
    intros [= <-] Hne. cbn. by rewrite lookup_insert_ne.
Qed.

Lemma sample_quadrants_finer : quadrants_one_zoom_finer.
Proof. intros tc. cbn. done. Qed.

Lemma sample_empty_cache : empty_cache (tdb (Sample.world Sample.empty_db)).
Proof. intros tc. cbn. by rewrite lookup_empty. Qed.

Lemma sample_ground_registered x y z :
  registered Sample.tr (coords.TileCoords.mk x y z 0).
Proof. exists Sample.ground. split; [|done]. apply elem_of_cons. by left. Qed.

Lemma sample_unregistered x y z : ¬ registered Sample.tr (coords.TileCoords.mk x y z 7).
Proof.
  intros (l & Hl & Hid). cbn in Hl.
  repeat (apply elem_of_cons in Hl as [->|Hl]; [done|]).
  by apply elem_of_nil in Hl.
Qed.

(** An address of an unregistered layer at zoom 99, asked cache-only. *)
Lemma RenderImage_cachedOnly_miss_witness :
  tiledb.GetTile (tdb (world empty_db)) tc_layer7 = inr None
  ∧ tilerenderer.RenderImage tr tc_layer7 true (world empty_db)
    = Some (Ok None, world empty_db,
            [EvRenderImage tc_layer7 true; EvGetTile tc_layer7]).
Proof.
  split; [reflexivity|].
  apply (RenderImage_cachedOnly_miss tr tc_layer7 (world empty_db)). reflexivity.
Defined.

(** The entry that is no image makes the decoder fail; the call fails with
    it. *)
Lemma RenderImage_corrupt_entry_witness :
  tiledb.GetTile (tdb (world corrupt_db)) tc5 = inr (Some corrupt_tile)
  ∧ png_Decode (tiledb.Data corrupt_tile) = inl "png: invalid format: not a PNG file"%string
  ∧ tilerenderer.RenderImage tr tc5 false (world corrupt_db)
    = Some (Err (DecodeError "png: invalid format: not a PNG file"), world corrupt_db,
            [EvRenderImage tc5 false; EvGetTile tc5]).
Proof.
  split; [vm_compute; reflexivity|]. split; [reflexivity|].
  apply (RenderImage_corrupt_entry tr tc5 false (world corrupt_db) corrupt_tile);
    [vm_compute; reflexivity | reflexivity].
Defined.

(** [Render] answers the same entry as it is stored, without decoding it. *)
Example Render_corrupt_entry :
  tilerenderer.Render tr tc5 (world corrupt_db)
  = Some (Ok [x00; x01], world corrupt_db, [EvGetTile tc5]).
Proof. vm_compute. reflexivity. Qed.

(** Both checks on the sample: layer 7 is not registered, zoom 0 is not
    valid. *)
Lemma RenderImage_validation_witness :
  tiledb.GetTile (tdb (world empty_db)) tc_layer7 = inr None
  ∧ tilerenderer.RenderImage tr tc_layer7 false (world empty_db)
    = Some (Err NoLayerFound, world empty_db,
            [EvRenderImage tc_layer7 false; EvGetTile tc_layer7])
  ∧ tilerenderer.RenderImage tr tc_zoom0 false (world empty_db)
    = Some (Err InvalidZoom, world empty_db,
            [EvRenderImage tc_zoom0 false; EvGetTile tc_zoom0]).
Proof.
  split; [reflexivity|]. split.
  - apply (RenderImage_validation tr tc_layer7 (world empty_db)); [reflexivity|].
    apply sample_unregistered.
  - apply (RenderImage_validation tr tc_zoom0 (world empty_db)); [reflexivity| |].
    + apply sample_ground_registered.
    + left. reflexivity.
Defined.

(** *** A coarse zoom on the cold sample cache *)

(** The cold request at zoom 5 is answered with bytes. *)
Lemma Render_zoom5_cold_not_empty : ¬ zoom5_answers_empty tr (world empty_db).
Proof.
  intros Hclaim. destruct (Hclaim tc5 eq_refl) as (w' & evs & Hrun).
  vm_compute in Hrun. discriminate Hrun.
Qed.

Lemma Render_zoom5_empty_cache_witness :
  coords.TileCoords.Zoom tc5 = 5
  ∧ empty_cache (tdb (world empty_db))
  ∧ registered tr tc5
  ∧ ∃ w',
      tilerenderer.Render tr tc5 (world empty_db)
      = Some (Ok [x89; x00; x00; x00; x00], w',
              EvGetTile tc5 :: EvRenderImage tc5 false :: EvGetTile tc5
              :: (children tc5 ≫= λ c, [EvRenderImage c true; EvGetTile c])
              ++ [EvSetTile (tiledb.mkTile tc5 [x89; x00; x00; x00; x00] 1614556800)
                    None])
      ∧ tilerenderer.Render tr tc5 w'
        = Some (Ok [x89; x00; x00; x00; x00], w', [EvGetTile tc5]).
Proof.
  split; [reflexivity|]. split; [apply sample_empty_cache|].
  split; [apply sample_ground_registered|].
  destruct (Render_zoom5_empty_cache tr tc5 (world empty_db) eq_refl
              sample_empty_cache (sample_ground_registered 3 4 5))
    as (w' & err & Hrun & Hset & _ & Hagain).
  assert (err = None) as -> by (vm_compute in Hset; congruence).
  exists w'. split; [exact Hrun|].
  exact (Hagain MemDB_laws eq_refl).
Defined.

(** *** Writes, flags and write errors on the sample *)

(** Zoom 12 on the cold cache: four fresh children at zoom 13, one write. *)
Lemma RenderImage_cache_writes_witness :
  quadrants_one_zoom_finer
  ∧ tiledb.GetTile (tdb (world empty_db)) tc12 = inr None
  ∧ ∃ r w' evs,
      tilerenderer.RenderImage tr tc12 false (world empty_db) = Some (r, w', evs)
      ∧ (coords.TileCoords.Zoom tc12 = 13 → writes evs = [] ∧ w' = world empty_db)
      ∧ (1 ≤ coords.TileCoords.Zoom tc12 ≤ 12 → is_Ok r = true →
         ∃ t, writes evs = [t] ∧ tiledb.Pos t = tc12).
Proof.
  split; [apply sample_quadrants_finer|]. split; [reflexivity|].
  apply (RenderImage_cache_writes tr tc12 (world empty_db) sample_quadrants_finer).
  reflexivity.
Defined.

Lemma RenderImage_children_flag_witness :
  quadrants_one_zoom_finer
  ∧ tiledb.GetTile (tdb (world empty_db)) tc12 = inr None
  ∧ registered tr tc12
  ∧ 1 ≤ coords.TileCoords.Zoom tc12 ≤ 12
  ∧ ∃ r w' evs k,
      tilerenderer.RenderImage tr tc12 false (world empty_db) = Some (r, w', evs)
      ∧ calls evs = (tc12, false) :: ((λ c, (c, false)) <$> take k (children tc12))
      ∧ (1 ≤ k ≤ 4)%nat
      ∧ (is_Ok r = true → k = 4%nat)
      ∧ (∀ c, c ∈ children tc12 →
           coords.TileCoords.Zoom c = coords.TileCoords.Zoom tc12 + 1)
      ∧ (false = false ↔ coords.TileCoords.Zoom tc12 = 12)
      ∧ (false = true ↔ 1 ≤ coords.TileCoords.Zoom tc12 ≤ 11).
Proof.
  split; [apply sample_quadrants_finer|]. split; [reflexivity|].
  split; [apply sample_ground_registered|]. split; [cbn; lia|].
  apply (RenderImage_children_flag tr tc12 (world empty_db) sample_quadrants_finer).
  - reflexivity.
  - apply sample_ground_registered.
  - cbn. lia.
Defined.

(** On the database that refuses writes the composite is returned all the
    same. *)
Lemma RenderImage_write_error_ignored_witness :
  let img := tilerenderer.compose None None None None in
  let t := tiledb.mkTile tc5 (png_Encode img) 1614556800 in
  let err := Some "attempt to write a readonly database"%string in
  let pre := EvRenderImage tc5 false :: EvGetTile tc5
             :: (children tc5 ≫= λ c, [EvRenderImage c true; EvGetTile c]) in
  quadrants_one_zoom_finer
  ∧ tiledb.GetTile (tdb (world readonly_db)) tc5 = inr None
  ∧ registered tr tc5
  ∧ 1 ≤ coords.TileCoords.Zoom tc5 ≤ 12
  ∧ tilerenderer.RenderImage tr tc5 false (world readonly_db)
    = Some (Ok (Some img), world readonly_db, pre ++ [EvSetTile t err])
  ∧ EvSetTile t err ∈ pre ++ [EvSetTile t err]
  ∧ ∃ ul ur ll lr,
      Ok (Some img) = Ok (Some (tilerenderer.compose ul ur ll lr))
      ∧ t = tiledb.mkTile tc5 (png_Encode (tilerenderer.compose ul ur ll lr))
              (clock (world readonly_db))
      ∧ tiledb.SetTile (tdb (world readonly_db)) t = (tdb (world readonly_db), err).
Proof.
  intros img t err pre.
  assert (tilerenderer.RenderImage tr tc5 false (world readonly_db)
          = Some (Ok (Some img), world readonly_db, pre ++ [EvSetTile t err])) as Hrun.
  { vm_compute. reflexivity. }
  assert (EvSetTile t err ∈ pre ++ [EvSetTile t err]) as Hin.
  { apply elem_of_app. right. apply list_elem_of_singleton. reflexivity. }
  split; [apply sample_quadrants_finer|]. split; [reflexivity|].
  split; [apply sample_ground_registered|]. split; [cbn; lia|].
  split; [exact Hrun|]. split; [exact Hin|].
  apply (RenderImage_write_error_ignored tr tc5 (world readonly_db)
           (Ok (Some img)) (world readonly_db) (pre ++ [EvSetTile t err]) t err).
  - apply sample_quadrants_finer.
  - reflexivity.
  - apply sample_ground_registered.
  - cbn. lia.
  - exact Hrun.
  - exact Hin.
Defined.

(** *** Asking twice on the sample *)

(** At zoom 13 nothing is cached: the second call asks the map block
    renderer again. *)
Lemma Render_zoom13_renders_again : ¬ Render_idempotent tr (world empty_db).
Proof.
  intros Hclaim.
  destruct (Hclaim tc13
              (Ok (png_Encode (solid (grey 200)))) (world empty_db)
              [EvGetTile tc13; EvRenderImage tc13 false; EvGetTile tc13;
               EvMapBlockRender (coords.MapBlockCoords.mk 3 11 (-5))
                                (coords.MapBlockCoords.mk 3 24 (-5))]
              (Ok (png_Encode (solid (grey 200)))) (world empty_db)
              [EvGetTile tc13; EvRenderImage tc13 false; EvGetTile tc13;
               EvMapBlockRender (coords.MapBlockCoords.mk 3 11 (-5))
                                (coords.MapBlockCoords.mk 3 24 (-5))])
    as (_ & Hleaf).
  - vm_compute. reflexivity.
  - vm_compute. reflexivity.
  - discriminate Hleaf.
Qed.

(** Zoom 12 on the cold cache, then again. *)
Lemma Render_twice_witness :
  tiledb.DBAccessorLaws MemDB
  ∧ tilerenderer.Render tr tc12 (world empty_db)
    = Some (Ok [x89; xc8; xc8; xc8; xc8], warm12, cold12_events)
  ∧ length (leaf_renders cold12_events) = 4%nat
  ∧ (coords.TileCoords.Zoom tc12 = 13 →
     ∃ t, tiledb.GetTile (tdb (world empty_db)) tc12 = inr (Some t))
  ∧ (∀ t err, EvSetTile t err ∈ cold12_events → err = None)
  ∧ tilerenderer.Render tr tc12 warm12
    = Some (Ok [x89; xc8; xc8; xc8; xc8], warm12, [EvGetTile tc12]).
Proof.
  assert (tilerenderer.Render tr tc12 (world empty_db)
          = Some (Ok [x89; xc8; xc8; xc8; xc8], warm12, cold12_events)) as Hrun.
  { vm_compute. reflexivity. }
  assert (coords.TileCoords.Zoom tc12 = 13 →
          ∃ t, tiledb.GetTile (tdb (world empty_db)) tc12 = inr (Some t)) as H13.
  { intros Hz. discriminate Hz. }
  assert (∀ t err, EvSetTile t err ∈ cold12_events → err = None) as Hacc.
  { intros t err Hin. unfold cold12_events in Hin.
    repeat (apply elem_of_cons in Hin as [Hin|Hin];
            [first [discriminate Hin | by injection Hin]|]).
    by apply elem_of_nil in Hin. }
  split; [exact MemDB_laws|].
  split; [exact Hrun|]. split; [reflexivity|]. split; [exact H13|].
  split; [exact Hacc|].
  exact (Render_twice tr tc12 (world empty_db) _ _ _ MemDB_laws Hrun H13 Hacc).
Defined.

(** *** The layer of a leaf render on the sample *)

(** C6 on the sample.  The address [tc13] is in layer 0, the ground layer,
    whose bounds are -1 and 10; the layer list is ground, sky.  The range
    handed to the map block renderer runs from 11 to 24, the bounds of the
    sky layer, the last one of the list. *)
Theorem leaf_render_uses_last_layer :
  layer.Id ground = coords.TileCoords.LayerId tc13
  ∧ layer.From ground = -1 ∧ layer.To ground = 10
  ∧ tilerenderer.layers tr = [ground; sky]
  ∧ tilerenderer.RenderImage tr tc13 false (world empty_db)
    = Some (Ok (Some (solid (grey 200))), world empty_db,
            [EvRenderImage tc13 false; EvGetTile tc13;
             EvMapBlockRender (coords.MapBlockCoords.mk 3 11 (-5))
                              (coords.MapBlockCoords.mk 3 24 (-5))]).
Proof. split_and!; vm_compute; reflexivity. Qed.

(** With the matching layer last in the list, its own bounds are used. *)
Example leaf_render_sky :
  tilerenderer.RenderImage tr (coords.TileCoords.mk 3 4 13 1) false (world empty_db)
  = Some (Ok (Some (solid (grey 200))), world empty_db,
          [EvRenderImage (coords.TileCoords.mk 3 4 13 1) false;
           EvGetTile (coords.TileCoords.mk 3 4 13 1);
           EvMapBlockRender (coords.MapBlockCoords.mk 3 11 (-5))
                            (coords.MapBlockCoords.mk 3 24 (-5))]).
Proof. vm_compute. reflexivity. Qed.

(** *** Compositing on the sample *)

Lemma At_blank x y : image.At blank x y = color.zero.
Proof. unfold image.At. by case_match. Qed.

(** A child that is there but transparent all over, such as the decoded
    entry of a blank composite, leaves its quadrant blank. *)
Lemma blank_child_blank_quadrant : ¬ blank_iff_empty.
Proof.
  intros Hclaim.
  destruct (Hclaim (Some blank) None None None UpperLeft) as [Hempty _].
  discriminate Hempty.
  intros x y _. unfold tilerenderer.compose, tilerenderer.draw_quadrant, draw.Draw.
  unfold image.At at 1. cbn. repeat case_match; try reflexivity.
  unfold image.At at 1. cbn. case_match; [apply At_blank|reflexivity].
Qed.

Lemma compose_quadrant_witness :
  image.Point_In (image.mkPoint 200 20) (quadrant_rect UpperRight) = true
  ∧ image.At (tilerenderer.compose None (Some (solid (grey 200))) None None) 200 20
    = image.At (imaging_Resize (solid (grey 200)) 128 128) (200 - 128) (20 - 0)
  ∧ image.At (imaging_Resize (solid (grey 200)) 128 128) (200 - 128) (20 - 0)
    = grey 200.
Proof.
  split; [reflexivity|]. split; [|reflexivity].
  apply (compose_quadrant None (Some (solid (grey 200))) None None UpperRight 200 20).
  reflexivity.
Defined.

(** *** Whole requests on the sample *)

Lemma RenderImage_bounded_work_witness :
  quadrants_one_zoom_finer
  ∧ ∃ r w' evs,
      tilerenderer.RenderImage tr tc12 false (world empty_db) = Some (r, w', evs)
      ∧ (length (calls evs) ≤ 5)%nat
      ∧ (length (lookups evs) ≤ 5)%nat
      ∧ (length (leaf_renders evs) ≤ 4)%nat
      ∧ (length (writes evs) ≤ 1)%nat
      ∧ (∀ t, t ∈ writes evs →
              tiledb.Pos t = tc12 ∧ tiledb.Mtime t = clock (world empty_db)).
Proof.
  split; [apply sample_quadrants_finer|].
  apply (RenderImage_bounded_work tr tc12 false (world empty_db)).
  apply sample_quadrants_finer.
Defined.

Lemma Render_coarse_never_renders_witness :
  coords.TileCoords.Zoom tc5 ≠ 12
  ∧ coords.TileCoords.Zoom tc5 ≠ 13
  ∧ ∃ r w' evs,
      tilerenderer.Render tr tc5 (world child_db) = Some (r, w', evs)
      ∧ leaf_renders evs = [].
Proof.
  assert (coords.TileCoords.Zoom tc5 ≠ 12) as H12 by (cbn; lia).
  assert (coords.TileCoords.Zoom tc5 ≠ 13) as H13 by (cbn; lia).
  split; [exact H12|]. split; [exact H13|].
  exact (Render_coarse_never_renders tr tc5 (world child_db) H12 H13).
Defined.

(** The first child of [tc_unreadable] cannot be rendered: the request fails
    and the cache stays empty. *)
Lemma Render_error_leaves_cache_witness :
  quadrants_one_zoom_finer
  ∧ tilerenderer.Render tr tc_unreadable (world empty_db)
    = Some (Err (RenderError "mapblock not readable"), world empty_db,
            unreadable_events)
  ∧ length (leaf_renders unreadable_events) = 1%nat
  ∧ world empty_db = world empty_db ∧ writes unreadable_events = [].
Proof.
  assert (tilerenderer.Render tr tc_unreadable (world empty_db)
          = Some (Err (RenderError "mapblock not readable"), world empty_db,
                  unreadable_events)) as Hrun.
  { vm_compute. reflexivity. }
  split; [apply sample_quadrants_finer|]. split; [exact Hrun|].
  split; [reflexivity|].
  exact (Render_error_leaves_cache tr tc_unreadable (world empty_db) _ _ _
           sample_quadrants_finer Hrun).
Defined.

Lemma Render_fresh_bytes_cached_witness :
  quadrants_one_zoom_finer
  ∧ tiledb.GetTile (tdb (world empty_db)) tc12 = inr None
  ∧ coords.TileCoords.Zoom tc12 ≠ 13
  ∧ tilerenderer.Render tr tc12 (world empty_db)
    = Some (Ok [x89; xc8; xc8; xc8; xc8], warm12, cold12_events)
  ∧ writes cold12_events
    = [tiledb.mkTile tc12 [x89; xc8; xc8; xc8; xc8] (clock (world empty_db))]
  ∧ ∃ err,
      tiledb.SetTile (tdb (world empty_db))
        (tiledb.mkTile tc12 [x89; xc8; xc8; xc8; xc8] (clock (world empty_db)))
      = (tdb warm12, err).
Proof.
  assert (tilerenderer.Render tr tc12 (world empty_db)
          = Some (Ok [x89; xc8; xc8; xc8; xc8], warm12, cold12_events)) as Hrun.
  { vm_compute. reflexivity. }
  assert (coords.TileCoords.Zoom tc12 ≠ 13) as H13 by (cbn; lia).
  split; [apply sample_quadrants_finer|]. split; [reflexivity|].
  split; [exact H13|]. split; [exact Hrun|].
  apply (Render_fresh_bytes_cached tr tc12 (world empty_db) _ warm12 cold12_events
           sample_quadrants_finer);
    [reflexivity | exact H13 | exact Hrun].
Defined.

(** Zoom 13 in the ground layer: the range runs between the bounds of the
    sky layer, the last of the list. *)
Lemma Render_zoom13_fresh_witness :
  tiledb.GetTile (tdb (world empty_db)) tc13 = inr None
  ∧ registered tr tc13
  ∧ last (tilerenderer.layers tr) = Some sky
  ∧ coords.TileCoords.Zoom tc13 = 13
  ∧ tilerenderer.Render tr tc13 (world empty_db)
    = Some (Ok (png_Encode (solid (grey 200))), world empty_db,
            [EvGetTile tc13; EvRenderImage tc13 false; EvGetTile tc13;
             EvMapBlockRender (coords.MapBlockCoords.mk 3 11 (-5))
                              (coords.MapBlockCoords.mk 3 24 (-5))]).
Proof.
  split; [reflexivity|]. split; [apply sample_ground_registered|].
  split; [reflexivity|]. split; [reflexivity|].
  exact (Render_zoom13_fresh tr tc13 (world empty_db) sky
           eq_refl (sample_ground_registered 3 4 13) eq_refl eq_refl).
Defined.

(** The stored tile of [tc12] read back as an image, cache-only. *)
Lemma RenderImage_cached_image_witness :
  tiledb.GetTile (tdb warm12) tc12
  = inr (Some (tiledb.mkTile tc12 [x89; xc8; xc8; xc8; xc8] 1614556800))
  ∧ png_Decode [x89; xc8; xc8; xc8; xc8] = inr decoded_grey
  ∧ ∃ img,
      tilerenderer.RenderImage tr tc12 true warm12
      = Some (Ok (Some img), warm12, [EvRenderImage tc12 true; EvGetTile tc12])
      ∧ image.Bounds img = tile_bounds
      ∧ ∀ x y, image.At img x y
               = if image.Point_In (image.mkPoint x y) tile_bounds
                 then image.At decoded_grey x y
                 else color.zero.
Proof.
  assert (tiledb.GetTile (tdb warm12) tc12
          = inr (Some (tiledb.mkTile tc12 [x89; xc8; xc8; xc8; xc8] 1614556800)))
    as Hget by (vm_compute; reflexivity).
  assert (png_Decode [x89; xc8; xc8; xc8; xc8] = inr decoded_grey) as Hdec.
  { reflexivity. }
  split; [exact Hget|]. split; [exact Hdec|].
  exact (RenderImage_cached_image tr tc12 true warm12 _ decoded_grey Hget Hdec).
Defined.

(** One child of [tc5] is cached: it fills the top-left quadrant of the
    composite, the three other quadrants stay blank. *)
Lemma RenderImage_from_cached_children_witness :
  let quads := GetZoomedQuadrantsFromTile tc5 in
  let img := tilerenderer.compose (Some cached_upper_left) None None None in
  let tile := tiledb.mkTile tc5 (png_Encode img) (clock (world child_db)) in
  1 ≤ coords.TileCoords.Zoom tc5 ≤ 11
  ∧ tiledb.GetTile (tdb (world child_db)) tc5 = inr None
  ∧ registered tr tc5
  ∧ from_cache (tdb (world child_db)) (coords.TileQuadrants.UpperLeft quads)
    = Ok (Some cached_upper_left)
  ∧ from_cache (tdb (world child_db)) (coords.TileQuadrants.UpperRight quads) = Ok None
  ∧ from_cache (tdb (world child_db)) (coords.TileQuadrants.LowerLeft quads) = Ok None
  ∧ from_cache (tdb (world child_db)) (coords.TileQuadrants.LowerRight quads) = Ok None
  ∧ png_Encode img = [x89; xc8; x00; x00; x00]
  ∧ tilerenderer.RenderImage tr tc5 false (world child_db)
    = Some (Ok (Some img),
            mkWorld (fst (tiledb.SetTile (tdb (world child_db)) tile))
              (clock (world child_db)),
            EvRenderImage tc5 false :: EvGetTile tc5
            :: (children tc5 ≫= λ c, [EvRenderImage c true; EvGetTile c])
            ++ [EvSetTile tile (snd (tiledb.SetTile (tdb (world child_db)) tile))]).
Proof.
  intros quads img tile.
  assert (1 ≤ coords.TileCoords.Zoom tc5 ≤ 11) as Hz by (cbn; lia).
  assert (from_cache (tdb (world child_db)) (coords.TileQuadrants.UpperLeft quads)
          = Ok (Some cached_upper_left)) as Hul by (vm_compute; reflexivity).
  assert (from_cache (tdb (world child_db)) (coords.TileQuadrants.UpperRight quads)
          = Ok None) as Hur by (vm_compute; reflexivity).
  assert (from_cache (tdb (world child_db)) (coords.TileQuadrants.LowerLeft quads)
          = Ok None) as Hll by (vm_compute; reflexivity).
  assert (from_cache (tdb (world child_db)) (coords.TileQuadrants.LowerRight quads)
          = Ok None) as Hlr by (vm_compute; reflexivity).
  assert (tiledb.GetTile (tdb (world child_db)) tc5 = inr None) as Hmiss
    by (vm_compute; reflexivity).
  split; [exact Hz|]. split; [exact Hmiss|].
  split; [apply sample_ground_registered|].
  split; [exact Hul|]. split; [exact Hur|]. split; [exact Hll|]. split; [exact Hlr|].
  split; [vm_compute; reflexivity|].
  exact (RenderImage_from_cached_children tr tc5 (world child_db)
           (Some cached_upper_left) None None None
           Hz Hmiss (sample_ground_registered 3 4 5) Hul Hur Hll Hlr).
Defined.

Lemma decoded_blank_same x y :
  image.At decoded_blank x y
  = image.At (tilerenderer.compose None None None None) x y.
Proof.
  rewrite compose_empty_blank. unfold image.At.
  case_match; [|done]. cbn. by repeat case_match.
Qed.

(** The blank composite of [tc5] written to the empty cache and read back. *)
Lemma RenderImage_reads_back_witness :
  let img := tilerenderer.compose None None None None in
  tiledb.DBAccessorLaws MemDB
  ∧ tiledb.GetTile (tdb (world empty_db)) tc5 = inr None
  ∧ coords.TileCoords.Zoom tc5 ≠ 13
  ∧ tilerenderer.RenderImage tr tc5 false (world empty_db)
    = Some (Ok (Some img), warm5, cold5_events)
  ∧ (∀ t err, EvSetTile t err ∈ cold5_events → err = None)
  ∧ png_Decode (png_Encode img) = inr decoded_blank
  ∧ (∀ x y, image.At decoded_blank x y = image.At img x y)
  ∧ ∃ img',
      tilerenderer.RenderImage tr tc5 true warm5
      = Some (Ok (Some img'), warm5, [EvRenderImage tc5 true; EvGetTile tc5])
      ∧ ∀ x y, image.At img' x y = image.At img x y.
Proof.
  intros img.
  assert (tilerenderer.RenderImage tr tc5 false (world empty_db)
          = Some (Ok (Some img), warm5, cold5_events)) as Hrun.
  { vm_compute. reflexivity. }
  assert (coords.TileCoords.Zoom tc5 ≠ 13) as H13 by (cbn; lia).
  assert (∀ t err, EvSetTile t err ∈ cold5_events → err = None) as Hacc.
  { intros t err Hin. unfold cold5_events in Hin.
    repeat (apply elem_of_cons in Hin as [Hin|Hin];
            [first [discriminate Hin | by injection Hin]|]).
    by apply elem_of_nil in Hin. }
  assert (png_Decode (png_Encode img) = inr decoded_blank) as Hdec.
  { vm_compute. reflexivity. }
  split; [exact MemDB_laws|]. split; [reflexivity|]. split; [exact H13|].
  split; [exact Hrun|]. split; [exact Hacc|]. split; [exact Hdec|].
  split; [exact decoded_blank_same|].
  exact (RenderImage_reads_back tr tc5 (world empty_db) img warm5 cold5_events true
           decoded_blank MemDB_laws eq_refl H13 Hrun Hacc Hdec decoded_blank_same).
Defined.

(** The cold request of [tc12] leaves the (absent) entry of [tc5] alone. *)
Lemma Render_other_entries_kept_witness :
  tiledb.DBAccessorLaws MemDB
  ∧ quadrants_one_zoom_finer
  ∧ tilerenderer.Render tr tc12 (world empty_db)
    = Some (Ok [x89; xc8; xc8; xc8; xc8], warm12, cold12_events)
  ∧ (∀ t err, EvSetTile t err ∈ cold12_events → err = None)
  ∧ tc5 ≠ tc12
  ∧ tiledb.GetTile (tdb warm12) tc5 = tiledb.GetTile (tdb (world empty_db)) tc5.
Proof.
  assert (tilerenderer.Render tr tc12 (world empty_db)
          = Some (Ok [x89; xc8; xc8; xc8; xc8], warm12, cold12_events)) as Hrun.
  { vm_compute. reflexivity. }
  assert (∀ t err, EvSetTile t err ∈ cold12_events → err = None) as Hacc.
  { intros t err Hin. unfold cold12_events in Hin.
    repeat (apply elem_of_cons in Hin as [Hin|Hin];
            [first [discriminate Hin | by injection Hin]|]).
    by apply elem_of_nil in Hin. }
  assert (tc5 ≠ tc12) as Hne by discriminate.
  split; [exact MemDB_laws|]. split; [apply sample_quadrants_finer|].
  split; [exact Hrun|]. split; [exact Hacc|]. split; [exact Hne|].
  exact (Render_other_entries_kept tr tc12 (world empty_db) _ warm12 cold12_events tc5
           MemDB_laws sample_quadrants_finer Hrun Hacc Hne).
Defined.

(** The void block of the sample: the empty answer, at zoom 13. *)
Lemma Render_empty_only_at_zoom13_witness :
  (∀ ul ur ll lr, png_Encode (tilerenderer.compose ul ur ll lr) ≠ [])
  ∧ tiledb.GetTile (tdb (world empty_db)) tc13_void = inr None
  ∧ tilerenderer.Render tr tc13_void (world empty_db)
    = Some (Ok [], world empty_db,
            [EvGetTile tc13_void; EvRenderImage tc13_void false; EvGetTile tc13_void;
             EvMapBlockRender (coords.MapBlockCoords.mk (-3) 11 (-5))
                              (coords.MapBlockCoords.mk (-3) 24 (-5))])
  ∧ coords.TileCoords.Zoom tc13_void = 13
  ∧ world empty_db = world empty_db
  ∧ writes [EvGetTile tc13_void; EvRenderImage tc13_void false; EvGetTile tc13_void;
            EvMapBlockRender (coords.MapBlockCoords.mk (-3) 11 (-5))
                             (coords.MapBlockCoords.mk (-3) 24 (-5))] = [].
Proof.
  assert (∀ ul ur ll lr, png_Encode (tilerenderer.compose ul ur ll lr) ≠ []) as Henc
    by (intros ul ur ll lr; discriminate).
  assert (tilerenderer.Render tr tc13_void (world empty_db)
          = Some (Ok [], world empty_db,
                  [EvGetTile tc13_void; EvRenderImage tc13_void false;
                   EvGetTile tc13_void;
                   EvMapBlockRender (coords.MapBlockCoords.mk (-3) 11 (-5))
                                    (coords.MapBlockCoords.mk (-3) 24 (-5))])) as Hrun.
  { vm_compute. reflexivity. }
  split; [exact Henc|]. split; [reflexivity|]. split; [exact Hrun|].
  exact (Render_empty_only_at_zoom13 tr tc13_void (world empty_db) _ _
           Henc eq_refl Hrun).
Defined.
